(** * SARSA(0) agent: epsilon-greedy policy, annealing schedules, TD update,
      evaluation loop and training loop

    Shallow embedding of [sarsa_zero/sarsa_zero_agent.py] (class
    [SARSAZeroAgent]).  Python floats are IEEE 754 binary64 numbers and are
    modelled by Rocq's primitive floats, which are binary64 with
    round-to-nearest-even as well.  Python exceptions are an explicit
    outcome.  The mutable collaborators (Q-value table, random source, the
    two Gym environments) live in an explicit world state that every method
    threads; each call to a collaborator is appended to a call trace. *)

From Stdlib Require Import ZArith Bool List Lia Floats.
From stdpp Require Import gmap.

Set Warnings "-inexact-float".

(** ** Python values and exceptions *)

Inductive exn :=
| QValueNotFoundError
| ZeroDivisionError
| OverflowError
| ValueError
| IndexError.

(** The result of running a piece of Python: a value, a raised exception, or
    [OutOfFuel] when the iteration budget given to a [while True] loop of the
    model is used up (the loop has not finished yet). *)
Inductive outcome (A : Type) :=
| Ret (a : A)
| Raise (e : exn)
| OutOfFuel.
Arguments Ret {A} a.
Arguments Raise {A} e.
Arguments OutOfFuel {A}.

Definition obind {A B} (o : outcome A) (k : A -> outcome B) : outcome B :=
  match o with
  | Ret a => k a
  | Raise e => Raise e
  | OutOfFuel => OutOfFuel
  end.

Notation "'let!' x ':=' e 'in' k" := (obind e (fun x => k))
  (at level 10, x name, e at level 100, k at level 200, only parsing).

Module PyFloat.

(** [x == y], extended so that two NaNs count as the same value. *)
Definition same_number (x y : float) : bool :=
  (x =? y)%float || (is_nan x && is_nan y).

(** The binary64 number nearest to an integer (ties to even). *)
Definition of_int (n : Z) : float :=
  SF2Prim (binary_normalize prec emax n 0 false).

(** A key that orders the binary64 numbers other than NaN. *)
Definition rank (x : spec_float) : Z * Z * Z :=
  match x with
  | S754_infinity true => (-2, 0, 0)
  | S754_finite true m e => (-1, - e, Z.neg m)
  | S754_zero _ => (0, 0, 0)
  | S754_nan => (0, 0, 0)
  | S754_finite false m e => (1, e, Z.pos m)
  | S754_infinity false => (2, 0, 0)
  end%Z.

Definition key (x : float) : Z * Z * Z := rank (Prim2SF x).

Definition lex_compare (p q : Z * Z * Z) : comparison :=
  let '(a1, b1, c1) := p in
  let '(a2, b2, c2) := q in
  match (a1 ?= a2)%Z with
  | Eq => match (b1 ?= b2)%Z with Eq => (c1 ?= c2)%Z | r => r end
  | r => r
  end.

Definition lex_lt (p q : Z * Z * Z) : Prop :=
  let '(a1, b1, c1) := p in
  let '(a2, b2, c2) := q in
  (a1 < a2 \/ (a1 = a2 /\ (b1 < b2 \/ (b1 = b2 /\ c1 < c2))))%Z.

Definition SFis_nan (x : spec_float) : bool :=
  match x with S754_nan => true | _ => false end.

Definition SFis_finite (x : spec_float) : bool :=
  match x with S754_zero _ | S754_finite _ _ _ => true | _ => false end.

End PyFloat.

(** [float(n)] for a Python int: [OverflowError] when [n] is too large. *)
Definition py_float (n : Z) : outcome float :=
  let x := PyFloat.of_int n in
  if is_infinity x then Raise OverflowError else Ret x.

(** [x / y] on floats: Python raises on a zero divisor. *)
Definition py_truediv (x y : float) : outcome float :=
  if (y =? 0)%float then Raise ZeroDivisionError else Ret (x / y)%float.

(** [a % b] on ints. *)
Definition py_mod (a b : Z) : outcome Z :=
  if (b =? 0)%Z then Raise ZeroDivisionError else Ret (a mod b)%Z.

(** [max(values)]: the first item is the running maximum, a later item
    replaces it only when it compares strictly greater; [ValueError] on an
    empty sequence. *)
Definition py_max (values : list float) : outcome float :=
  match values with
  | [] => Raise ValueError
  | x :: rest =>
      Ret (fold_left (fun best y => if (best <? y)%float then y else best) rest x)
  end.

(** ** The schedules *)

Definition get_epsilon (start_epsilon end_epsilon : float)
    (observation_number total_observations : Z) : outcome float :=
  let! total := py_float total_observations in
  let! number := py_float observation_number in
  let! training_progress_fraction := py_truediv number total in
  Ret (start_epsilon -
       (start_epsilon - end_epsilon) * training_progress_fraction)%float.

Definition get_learning_rate (start_learning_rate end_learning_rate : float)
    (observation_number total_observations : Z) : outcome float :=
  let! total := py_float total_observations in
  let! number := py_float observation_number in
  let! training_progress_fraction := py_truediv number total in
  Ret (start_learning_rate -
       (start_learning_rate - end_learning_rate) * training_progress_fraction)%float.

(** ** The collaborators and the world state *)

(** Which of the two environments of [train] a call goes to. *)
Inductive which := Learning | Testing.

Section Agent.

(** Observations are opaque hashable keys. *)
Context {obs : Type} `{Countable obs}.
(** State of the random source and of an environment. *)
Context {R St : Type}.

(** Python's [random] module: [random.random()], and the index below
    [len(seq)] that [random.choice(seq)] draws. *)
Record RandomSource := {
  random_random : R -> float * R;
  random_below : nat -> R -> nat * R
}.

(** A Gym environment with a discrete action space: [action_space.n],
    [action_space.sample()] (which has a generator of its own, kept in the
    random source), [reset()] and [step(action)].  [render()] and [close()]
    only show in the call trace. *)
Record Env := {
  action_space_n : nat;
  action_space_sample : R -> nat * R;
  env_reset : St -> obs * St;
  env_step : nat -> St -> obs * float * bool * St
}.

Variable random : RandomSource.
Variable env : which -> Env.

(** The call trace: calls to the table, to the environments and to the
    output, and the entries of [get_action] and [update_table] with the
    exploration probability and the learning rate they were given. *)
Inductive event :=
| TableGet (o : obs) (a : nat)
| TableUpdate (o : obs) (a : nat) (q : float)
| TableSave
| EnvReset (h : which)
| EnvStep (h : which) (a : nat) (reward : float) (done : bool)
| EnvRender (h : which)
| EnvClose (h : which)
| SpaceSample (h : which)
| MonitorLearning
| MonitorTesting (uid : Z)
| InnerClose
| CallGetAction (h : which) (epsilon : float)
| CallUpdateTable (learning_rate : float)
| PrintTest (episode_number observation_number : Z) (average_reward : float)
| PrintEpisode (episode_number observation_number : Z) (reward epsilon : float).

Record world := World {
  w_table : gmap (obs * nat) float;
  w_random : R;
  w_learning : St;
  w_testing : St;
  w_log : list event
}.

Definition M (A : Type) : Type := world -> outcome A * world.

Definition ret {A} (a : A) : M A := fun w => (Ret a, w).

Definition bind {A B} (m : M A) (k : A -> M B) : M B :=
  fun w =>
    match m w with
    | (Ret a, w') => k a w'
    | (Raise e, w') => (Raise e, w')
    | (OutOfFuel, w') => (OutOfFuel, w')
    end.

Definition lift {A} (o : outcome A) : M A := fun w => (o, w).

Definition out_of_fuel {A} : M A := fun w => (OutOfFuel, w).

(** [try: m except QValueNotFoundError: handler] *)
Definition try_except_not_found {A} (m : M A) (handler : M A) : M A :=
  fun w =>
    match m w with
    | (Raise QValueNotFoundError, w') => handler w'
    | r => r
    end.

Definition add_log (events : list event) (w : world) : world :=
  World (w_table w) (w_random w) (w_learning w) (w_testing w) (w_log w ++ events).

Definition emit (e : event) : M unit := fun w => (Ret tt, add_log [e] w).

Notation "'do' x <- m ; k" := (bind m (fun x => k))
  (at level 10, x name, m at level 100, k at level 200, only parsing).
Notation "'do' ' p <- m ; k" := (bind m (fun x => match x with p => k end))
  (at level 10, p pattern, m at level 100, k at level 200, only parsing).
Notation "'run' m ; k" := (bind m (fun _ => k))
  (at level 10, m at level 100, k at level 200, only parsing).

Definition set_table (t : gmap (obs * nat) float) (w : world) : world :=
  World t (w_random w) (w_learning w) (w_testing w) (w_log w).

Definition set_random (r : R) (w : world) : world :=
  World (w_table w) r (w_learning w) (w_testing w) (w_log w).

Definition env_state (h : which) (w : world) : St :=
  match h with Learning => w_learning w | Testing => w_testing w end.

Definition set_env_state (h : which) (s : St) (w : world) : world :=
  match h with
  | Learning => World (w_table w) (w_random w) s (w_testing w) (w_log w)
  | Testing => World (w_table w) (w_random w) (w_learning w) s (w_log w)
  end.

(** *** The Q-value table *)

(** Modelled from the spec: the table class of [sarsa_zero.models] is not
    among the sources.  The spec gives its contract: [get_q_value] returns
    the stored estimate or signals "not found" ([QValueNotFoundError]) when
    the key is absent, [update_q_value] is an unconditional upsert, [save]
    persists the contents. *)
Definition get_q_value (observation : obs) (action : nat) : M float :=
  run emit (TableGet observation action);
  fun w =>
    match w_table w !! (observation, action) with
    | Some q => (Ret q, w)
    | None => (Raise QValueNotFoundError, w)
    end.

Definition update_q_value (observation : obs) (action : nat) (q : float) : M unit :=
  run emit (TableUpdate observation action q);
  fun w => (Ret tt, set_table (<[(observation, action) := q]> (w_table w)) w).

Definition save : M unit := emit TableSave.

(** *** The random source and the environments *)

Definition random_random_ : M float :=
  fun w => let '(u, r) := random_random random (w_random w) in (Ret u, set_random r w).

(** [random.choice(seq)]: [IndexError] on an empty sequence, else the item
    at the drawn index. *)
Definition random_choice (seq : list nat) : M nat :=
  match seq with
  | [] => lift (Raise IndexError)
  | _ =>
      fun w =>
        let '(i, r) := random_below random (length seq) (w_random w) in
        match nth_error seq i with
        | Some a => (Ret a, set_random r w)
        | None => (Raise IndexError, set_random r w)
        end
  end.

Definition sample (h : which) : M nat :=
  run emit (SpaceSample h);
  fun w =>
    let '(a, r) := action_space_sample (env h) (w_random w) in
    (Ret a, set_random r w).

Definition reset (h : which) : M obs :=
  run emit (EnvReset h);
  fun w =>
    let '(o, s) := env_reset (env h) (env_state h w) in
    (Ret o, set_env_state h s w).

Definition step (h : which) (action : nat) : M (obs * float * bool) :=
  fun w =>
    let '(o, reward, done, s) := env_step (env h) action (env_state h w) in
    (run emit (EnvStep h action reward done); ret (o, reward, done))
      (set_env_state h s w).

Definition render (h : which) : M unit := emit (EnvRender h).

Definition close (h : which) : M unit := emit (EnvClose h).

(** ** The agent *)

(** The loop of [get_action] that fills [q_values_for_this_observation]: a
    dict keyed by the actions in the order they are inserted, kept as an
    association list. *)
Fixpoint q_values_for (observation : obs) (actions : list nat) : M (list (nat * float)) :=
  match actions with
  | [] => ret []
  | action :: rest =>
      do q_value <-
        try_except_not_found (get_q_value observation action) (ret 0%float);
      do more <- q_values_for observation rest;
      ret ((action, q_value) :: more)
  end.

Definition get_action (h : which) (observation : obs) (epsilon : float) : M nat :=
  run emit (CallGetAction h epsilon);
  do u <- random_random_;
  if (u <? epsilon)%float then sample h
  else
    do q_values_for_this_observation <-
      q_values_for observation (seq 0 (action_space_n (env h)));
    do max_q_value <- lift (py_max (map snd q_values_for_this_observation));
    let actions_with_max_q_value :=
      map fst
        (List.filter (fun item => (snd item =? max_q_value)%float)
           q_values_for_this_observation) in
    random_choice actions_with_max_q_value.

Definition update_table (discount_factor learning_rate : float)
    (observation : obs) (action : nat) (reward : float) (done : bool)
    (next_observation : obs) (next_action : nat) : M unit :=
  run emit (CallUpdateTable learning_rate);
  let td_target := reward in
  do td_target <-
    (if negb done then
       try_except_not_found
         (do next_q_value <- get_q_value next_observation next_action;
          ret (td_target + discount_factor * next_q_value)%float)
         (ret td_target)
     else ret td_target);
  let updated_q_value := (learning_rate * td_target)%float in
  do updated_q_value <-
    try_except_not_found
      (do q_value <- get_q_value observation action;
       ret (updated_q_value + q_value * (1 - learning_rate))%float)
      (ret updated_q_value);
  update_q_value observation action updated_q_value.

(** The [while True] loop of [test]: one episode, at most [fuel] steps. *)
Fixpoint test_episode (fuel : nat) (h : which) (epsilon : float) (render_ : bool)
    (observation : obs) (total_rewards : float) : M float :=
  match fuel with
  | O => out_of_fuel
  | S fuel' =>
      run (if render_ then render h else ret tt);
      do action <- get_action h observation epsilon;
      do '(observation', reward, done) <- step h action;
      let total_rewards := (total_rewards + reward)%float in
      if done then ret total_rewards
      else test_episode fuel' h epsilon render_ observation' total_rewards
  end.

(** The [for episode_number in range(...)] loop of [test]. *)
Fixpoint test_episodes (fuel : nat) (h : which) (epsilon : float) (render_ : bool)
    (episodes : nat) (total_rewards : float) : M float :=
  match episodes with
  | O => ret total_rewards
  | S episodes' =>
      do observation <- reset h;
      do total_rewards <- test_episode fuel h epsilon render_ observation total_rewards;
      test_episodes fuel h epsilon render_ episodes' total_rewards
  end.

Definition test (fuel : nat) (h : which) (total_number_of_episodes : Z)
    (epsilon : float) (render_ : bool) : M float :=
  do total_rewards <-
    test_episodes fuel h epsilon render_ (Z.to_nat total_number_of_episodes) 0%float;
  run close h;
  do episodes <- lift (py_float total_number_of_episodes);
  lift (py_truediv total_rewards episodes).

(** The parameters of [train] that stay fixed during a run. *)
Record config := {
  discount_factor : float;
  start_learning_rate : float;
  end_learning_rate : float;
  start_epsilon : float;
  end_epsilon : float;
  total_observations : Z;
  test_interval : Z;
  total_number_of_testing_episodes : Z;
  table_saving_interval : Z
}.

(** What the inner loop of [train] hands back to the outer loop. *)
Record progress := {
  p_observation_number : Z;
  p_episode_number : Z;
  p_total_rewards : float;
  p_epsilon : float
}.

(** The testing round of [train], run when the observation counter is a
    multiple of [test_interval]. *)
Definition testing_round (fuel : nat) (c : config)
    (episode_number observation_number : Z) : M unit :=
  do remainder <- lift (py_mod observation_number (test_interval c));
  if (remainder =? 0)%Z then
    run emit (MonitorTesting (observation_number / test_interval c));
    do average_reward <-
      test fuel Testing (total_number_of_testing_episodes c) 0%float false;
    emit (PrintTest episode_number observation_number average_reward)
  else ret tt.

(** The inner [while True] loop of [train]: one learning episode, at most
    [fuel] steps. *)
Fixpoint train_episode (fuel : nat) (c : config) (observation : obs) (action : nat)
    (observation_number episode_number : Z)
    (total_rewards_obtained_in_this_episode : float) : M progress :=
  match fuel with
  | O => out_of_fuel
  | S fuel' =>
      do '(next_observation, reward, done) <- step Learning action;
      do epsilon <-
        lift (get_epsilon (start_epsilon c) (end_epsilon c) observation_number
                (total_observations c));
      do next_action <- get_action Learning next_observation epsilon;
      do learning_rate <-
        lift (get_learning_rate (start_learning_rate c) (end_learning_rate c)
                observation_number (total_observations c));
      run update_table (discount_factor c) learning_rate observation action
            reward done next_observation next_action;
      let observation := next_observation in
      let action := next_action in
      let observation_number := (observation_number + 1)%Z in
      run testing_round fuel c episode_number observation_number;
      let total_rewards_obtained_in_this_episode :=
        (total_rewards_obtained_in_this_episode + reward)%float in
      if done then
        let episode_number := (episode_number + 1)%Z in
        do remainder <- lift (py_mod episode_number (table_saving_interval c));
        run (if (remainder =? 0)%Z then save else ret tt);
        ret {| p_observation_number := observation_number;
               p_episode_number := episode_number;
               p_total_rewards := total_rewards_obtained_in_this_episode;
               p_epsilon := epsilon |}
      else
        train_episode fuel' c observation action observation_number episode_number
          total_rewards_obtained_in_this_episode
  end.

(** The body of the outer loop of [train] up to the end of its inner loop:
    the reset, the selection of the first action, and the episode. *)
Definition learning_episode (fuel : nat) (c : config)
    (observation_number episode_number : Z) : M progress :=
  do observation <- reset Learning;
  do epsilon <-
    lift (get_epsilon (start_epsilon c) (end_epsilon c) observation_number
            (total_observations c));
  do action <- get_action Learning observation epsilon;
  train_episode fuel c observation action observation_number episode_number 0%float.

(** The outer [while observation_number < total_observations] loop; it
    hands back the two counters as they are when the loop is left. *)
Fixpoint train_loop (fuel : nat) (c : config)
    (observation_number episode_number : Z) : M (Z * Z) :=
  if (observation_number <? total_observations c)%Z then
    match fuel with
    | O => out_of_fuel
    | S fuel' =>
        do p <- learning_episode fuel c observation_number episode_number;
        run emit (PrintEpisode (p_episode_number p - 1) (p_observation_number p)
                    (p_total_rewards p) (p_epsilon p));
        train_loop fuel' c (p_observation_number p) (p_episode_number p)
    end
  else ret (observation_number, episode_number).

(** [train]: the learning environment is wrapped in a Monitor, the loop
    runs, then [learning_env.close()] and [testing_env.env.close()]. *)
Definition train (fuel : nat) (c : config) : M unit :=
  run emit MonitorLearning;
  run train_loop fuel c 0 1;
  run close Learning;
  emit InnerClose.

(** ** Vocabulary of the specification *)

(** The estimate the agent works with: the stored one, or 0 when the table
    has none. *)
Definition estimate (t : gmap (obs * nat) float) (observation : obs) (action : nat) : float :=
  default 0%float (t !! (observation, action)).

(** The actions of [0, n) that attain the maximum of the estimates: those
    whose estimate is at least the estimate of every action. *)
Definition greedy_actions (t : gmap (obs * nat) float) (observation : obs) (n : nat)
    : list nat :=
  List.filter
    (fun a =>
       forallb (fun b => (estimate t observation b <=? estimate t observation a)%float)
         (seq 0 n))
    (seq 0 n).

(** The SARSA(0) target: the reward, plus the discounted next estimate when
    the transition is not terminal and that estimate is known. *)
Definition td_target (gamma reward : float) (done : bool) (next : option float) : float :=
  match done, next with
  | false, Some q => (reward + gamma * q)%float
  | _, _ => reward
  end.

(** [alpha * target + (1 - alpha) * old] *)
Definition blend (alpha target old : float) : float :=
  (alpha * target + (1 - alpha) * old)%float.

(** The table calls that change it or ask for persistence. *)
Definition is_table_write (e : event) : bool :=
  match e with
  | TableUpdate _ _ _ | TableSave => true
  | _ => false
  end.

Definition is_table_call (e : event) : bool :=
  match e with
  | TableGet _ _ | TableUpdate _ _ _ | TableSave => true
  | _ => false
  end.

(** The exploration probabilities given to [get_action] for the learning
    environment, and the learning rates given to [update_table], in the
    order of the calls. *)
Definition learning_epsilons (events : list event) : list float :=
  flat_map (fun e => match e with CallGetAction Learning eps => [eps] | _ => [] end) events.

Definition learning_rates (events : list event) : list float :=
  flat_map (fun e => match e with CallUpdateTable lr => [lr] | _ => [] end) events.

(** The rewards handed out by the [step] calls of a trace, in order. *)
Definition rewards_of (events : list event) : list float :=
  flat_map (fun e => match e with EnvStep _ _ reward _ => [reward] | _ => [] end) events.

(** [0 + r1 + r2 + ...], added from left to right as the loops do. *)
Definition float_sum (rewards : list float) : float :=
  fold_left (fun total reward => (total + reward)%float) rewards 0%float.

Definition which_eqb (h h' : which) : bool :=
  match h, h' with
  | Learning, Learning | Testing, Testing => true
  | _, _ => false
  end.

(** The calls an evaluation on environment [h] may make before it closes
    the environment: resets, steps and renderings of [h], action
    selections for [h] with their lookups and samples. *)
Definition evaluation_event (h : which) (e : event) : bool :=
  match e with
  | EnvReset h' | EnvStep h' _ _ _ | EnvRender h' | SpaceSample h'
  | CallGetAction h' _ => which_eqb h h'
  | TableGet _ _ => true
  | _ => false
  end.

(** No stored estimate is NaN. *)
Definition no_nan (t : gmap (obs * nat) float) : Prop :=
  forall k v, t !! k = Some v -> is_nan v = false.

Definition is_reset (e : event) : bool :=
  match e with EnvReset _ => true | _ => false end.



End Agent.

(** * Facts *)

(** ** Binary64 arithmetic and order, from the specification of the
       primitive operations *)

Import PyFloat.

Lemma Prim2SF_zero : Prim2SF 0%float = S754_zero false.
Proof. reflexivity. Qed.
Lemma Prim2SF_one : Prim2SF 1%float = S754_finite false 4503599627370496 (-52).
Proof. reflexivity. Qed.
Lemma Prim2SF_infinity : Prim2SF infinity = S754_infinity false.
Proof. reflexivity. Qed.

Lemma float_mul_comm (x y : float) : (x * y = y * x)%float.
Proof.
  apply Prim2SF_inj. rewrite !FloatAxioms.mul_spec.
  destruct (Prim2SF x) as [sx|sx| |sx mx ex], (Prim2SF y) as [sy|sy| |sy my ey];
    cbn; rewrite ?(xorb_comm sy sx); try reflexivity.
  now rewrite (Pos.mul_comm my mx), (Z.add_comm ey ex).
Qed.

Lemma lex_compare_refl p : lex_compare p p = Eq.
Proof. destruct p as [[a b] c]. cbn. now rewrite !Z.compare_refl. Qed.

Lemma SFcompare_rank x y :
  SFis_nan x = false -> SFis_nan y = false ->
  SFcompare x y = Some (lex_compare (rank x) (rank y)).
Proof.
  destruct x as [sx|sx| |sx mx ex], y as [sy|sy| |sy my ey]; try discriminate;
    intros _ _; try (destruct sx, sy; reflexivity); try (destruct sx; reflexivity);
    try (destruct sy; reflexivity).
  destruct sx, sy; cbn; try reflexivity.
  destruct (Z.compare_spec ex ey) as [->|Hlt|Hgt].
  - rewrite Z.compare_refl. reflexivity.
  - assert ((- ex ?= - ey) = Gt)%Z as -> by (apply Z.compare_gt_iff; lia). reflexivity.
  - assert ((- ex ?= - ey) = Lt)%Z as -> by (apply Z.compare_lt_iff; lia). reflexivity.
Qed.

Lemma SFcompare_nan x y :
  SFis_nan x || SFis_nan y = true -> SFcompare x y = None.
Proof. destruct x, y; cbn; try discriminate; reflexivity. Qed.

Lemma is_nan_spec x : is_nan x = SFis_nan (Prim2SF x).
Proof.
  unfold is_nan. rewrite FloatAxioms.eqb_spec. unfold SFeqb.
  destruct (SFis_nan (Prim2SF x)) eqn:E.
  - rewrite SFcompare_nan; [reflexivity | now rewrite E].
  - rewrite SFcompare_rank, lex_compare_refl by assumption. reflexivity.
Qed.

Lemma lex_compare_Lt p q : lex_compare p q = Lt <-> lex_lt p q.
Proof.
  destruct p as [[a1 b1] c1], q as [[a2 b2] c2]. cbn.
  destruct (Z.compare_spec a1 a2), (Z.compare_spec b1 b2), (Z.compare_spec c1 c2);
    split; intros; try discriminate; try reflexivity; lia.
Qed.

Lemma lex_compare_Eq p q : lex_compare p q = Eq <-> p = q.
Proof.
  destruct p as [[a1 b1] c1], q as [[a2 b2] c2]. cbn.
  destruct (Z.compare_spec a1 a2), (Z.compare_spec b1 b2), (Z.compare_spec c1 c2);
    split; intros E; try discriminate; try reflexivity; try (inversion E; lia);
    subst; reflexivity.
Qed.

Lemma float_ltb_iff x y :
  (x <? y)%float = true <-> is_nan x = false /\ is_nan y = false /\ lex_lt (key x) (key y).
Proof.
  rewrite FloatAxioms.ltb_spec, !is_nan_spec. unfold SFltb, key.
  destruct (SFis_nan (Prim2SF x)) eqn:Ex.
  { rewrite SFcompare_nan by now rewrite Ex. split; [discriminate | intros [? _]; discriminate]. }
  destruct (SFis_nan (Prim2SF y)) eqn:Ey.
  { rewrite SFcompare_nan by (rewrite Ey; apply orb_true_r).
    split; [discriminate | intros (_ & ? & _); discriminate]. }
  rewrite SFcompare_rank by assumption. rewrite <- lex_compare_Lt.
  destruct (lex_compare _ _); split; try discriminate; try tauto;
    intros (_ & _ & ?); discriminate.
Qed.

Lemma float_eqb_iff x y :
  (x =? y)%float = true <-> is_nan x = false /\ is_nan y = false /\ key x = key y.
Proof.
  rewrite FloatAxioms.eqb_spec, !is_nan_spec. unfold SFeqb, key.
  destruct (SFis_nan (Prim2SF x)) eqn:Ex.
  { rewrite SFcompare_nan by now rewrite Ex. split; [discriminate | intros [? _]; discriminate]. }
  destruct (SFis_nan (Prim2SF y)) eqn:Ey.
  { rewrite SFcompare_nan by (rewrite Ey; apply orb_true_r).
    split; [discriminate | intros (_ & ? & _); discriminate]. }
  rewrite SFcompare_rank by assumption. rewrite <- lex_compare_Eq.
  destruct (lex_compare _ _); split; try discriminate; try tauto;
    intros (_ & _ & ?); discriminate.
Qed.

Lemma float_leb_iff x y :
  (x <=? y)%float = true <->
  is_nan x = false /\ is_nan y = false /\ (lex_lt (key x) (key y) \/ key x = key y).
Proof.
  rewrite FloatAxioms.leb_spec, !is_nan_spec. unfold SFleb, key.
  destruct (SFis_nan (Prim2SF x)) eqn:Ex.
  { rewrite SFcompare_nan by now rewrite Ex. split; [discriminate | intros [? _]; discriminate]. }
  destruct (SFis_nan (Prim2SF y)) eqn:Ey.
  { rewrite SFcompare_nan by (rewrite Ey; apply orb_true_r).
    split; [discriminate | intros (_ & ? & _); discriminate]. }
  rewrite SFcompare_rank by assumption. rewrite <- lex_compare_Eq, <- lex_compare_Lt.
  destruct (lex_compare _ _); split; try discriminate; try tauto;
    intros (_ & _ & [?|?]); discriminate.
Qed.

Lemma lex_total p q : lex_lt p q \/ p = q \/ lex_lt q p.
Proof.
  destruct p as [[a1 b1] c1], q as [[a2 b2] c2]. cbn.
  destruct (Z.lt_total a1 a2) as [?|[?|?]], (Z.lt_total b1 b2) as [?|[?|?]],
    (Z.lt_total c1 c2) as [?|[?|?]]; subst; try (left; lia); try (right; right; lia).
  right; left; reflexivity.
Qed.

Lemma lex_lt_trans p q r : lex_lt p q -> lex_lt q r -> lex_lt p r.
Proof.
  destruct p as [[a1 b1] c1], q as [[a2 b2] c2], r as [[a3 b3] c3]. cbn. lia.
Qed.

Lemma lex_lt_irrefl p : ~ lex_lt p p.
Proof. destruct p as [[a1 b1] c1]. cbn. lia. Qed.


Lemma float_eqb_refl x : is_nan x = false -> (x =? x)%float = true.
Proof. intros Hx. apply float_eqb_iff. auto. Qed.

Lemma float_eqb_sym x y : (x =? y)%float = true -> (y =? x)%float = true.
Proof. rewrite !float_eqb_iff. intros (? & ? & ?). auto. Qed.

Lemma float_eqb_trans x y z :
  (x =? y)%float = true -> (y =? z)%float = true -> (x =? z)%float = true.
Proof. rewrite !float_eqb_iff. intros (? & ? & ?) (? & ? & ?). repeat split; congruence. Qed.

Lemma float_ltb_false_leb x y :
  is_nan x = false -> is_nan y = false -> (x <? y)%float = false -> (y <=? x)%float = true.
Proof.
  intros Hx Hy Hlt. apply float_leb_iff. repeat split; try assumption.
  destruct (lex_total (key x) (key y)) as [Hl|[He|Hg]]; auto.
  assert ((x <? y)%float = true) by (apply float_ltb_iff; auto). congruence.
Qed.

Lemma float_ltb_leb x y : (x <? y)%float = true -> (x <=? y)%float = true.
Proof. rewrite float_ltb_iff, float_leb_iff. intros (? & ? & ?). auto. Qed.

Lemma float_eqb_leb x y : (x =? y)%float = true -> (x <=? y)%float = true.
Proof. rewrite float_eqb_iff, float_leb_iff. intros (? & ? & ?). auto. Qed.

Lemma float_leb_trans x y z :
  (x <=? y)%float = true -> (y <=? z)%float = true -> (x <=? z)%float = true.
Proof.
  rewrite !float_leb_iff. intros (? & ? & Hxy) (? & ? & Hyz). repeat split; try assumption.
  destruct Hxy as [Hxy|Hxy], Hyz as [Hyz|Hyz].
  - left. eapply lex_lt_trans; eassumption.
  - left. congruence.
  - left. congruence.
  - right. congruence.
Qed.

Lemma float_ltb_not_leb x y : (x <? y)%float = true -> (y <=? x)%float = true -> False.
Proof.
  rewrite float_ltb_iff, float_leb_iff. intros (_ & _ & Hlt) (_ & _ & [Hgt|He]).
  - eapply lex_lt_irrefl, lex_lt_trans; eassumption.
  - rewrite He in Hlt. eapply lex_lt_irrefl; eassumption.
Qed.

Lemma float_leb_antisym x y :
  (x <=? y)%float = true -> (y <=? x)%float = true -> (x =? y)%float = true.
Proof.
  rewrite !float_leb_iff, float_eqb_iff. intros (? & ? & Hxy) (_ & _ & Hyx). repeat split; try assumption.
  destruct Hxy as [Hxy|Hxy]; [|assumption]. destruct Hyx as [Hyx|Hyx]; [|congruence].
  exfalso. eapply lex_lt_irrefl, lex_lt_trans; eassumption.
Qed.

Lemma float_leb_not_nan x y : (x <=? y)%float = true -> is_nan x = false /\ is_nan y = false.
Proof. rewrite float_leb_iff. tauto. Qed.

Lemma float_leb_ltb_false x y : (x <=? y)%float = true -> (y <? x)%float = false.
Proof.
  intros Hle. destruct (y <? x)%float eqn:E; [|reflexivity].
  exfalso. eapply float_ltb_not_leb; eassumption.
Qed.

Lemma is_finite_spec x : is_finite x = SFis_finite (Prim2SF x).
Proof.
  unfold is_finite, is_infinity. rewrite is_nan_spec, FloatAxioms.eqb_spec, abs_spec.
  destruct (Prim2SF x) as [s|s| |s m e]; try reflexivity.
Qed.

Lemma SFeqb_refl x : SFis_nan x = false -> SFeqb x x = true.
Proof. intros Hx. unfold SFeqb. now rewrite SFcompare_rank, lex_compare_refl. Qed.

Lemma same_number_spec x y :
  same_number x y =
  SFeqb (Prim2SF x) (Prim2SF y) || (SFis_nan (Prim2SF x) && SFis_nan (Prim2SF y)).
Proof. unfold same_number. now rewrite FloatAxioms.eqb_spec, !is_nan_spec. Qed.

Lemma same_number_add_mul_zero x y :
  is_finite y = true -> same_number (x + y * 0) x = true.
Proof.
  rewrite is_finite_spec, same_number_spec, add_spec, FloatAxioms.mul_spec.
  change (Prim2SF 0) with (S754_zero false).
  destruct (Prim2SF y) as [sy|sy| |sy my ey]; try discriminate; intros _;
    destruct (Prim2SF x) as [sx|sx| |sx mx ex] eqn:Ex; cbn;
    try reflexivity; try (destruct sx, sy; reflexivity); try (destruct sx; reflexivity);
    rewrite orb_false_r; apply (SFeqb_refl (S754_finite sx mx ex)); reflexivity.
Qed.

Lemma zero_mul_finite x : is_finite x = true -> (0 * x =? 0)%float = true.
Proof.
  rewrite is_finite_spec, FloatAxioms.eqb_spec, FloatAxioms.mul_spec.
  change (Prim2SF 0) with (S754_zero false).
  destruct (Prim2SF x) as [s|s| |s m e]; try discriminate; reflexivity.
Qed.

Lemma is_zero_spec h :
  (h =? 0)%float = match Prim2SF h with S754_zero _ => true | _ => false end.
Proof.
  rewrite FloatAxioms.eqb_spec. change (Prim2SF 0) with (S754_zero false).
  destruct (Prim2SF h) as [s|s| |s m e]; try reflexivity; destruct s; reflexivity.
Qed.

Lemma schedule_at_zero s d h :
  is_finite d = true -> is_nan h = false -> (h =? 0)%float = false ->
  same_number (s - d * (0 / h)) s = true.
Proof.
  rewrite is_finite_spec, is_nan_spec, is_zero_spec, same_number_spec.
  rewrite sub_spec, FloatAxioms.mul_spec, div_spec.
  change (Prim2SF 0) with (S754_zero false).
  destruct (Prim2SF h) as [sh|sh| |sh mh eh]; try discriminate; intros Hd _ _;
    destruct (Prim2SF d) as [sd|sd| |sd md ed]; try discriminate;
    destruct (Prim2SF s) as [ss|ss| |ss ms es]; cbn;
    try reflexivity;
    try (destruct ss, sd, sh; reflexivity);
    rewrite orb_false_r; apply (SFeqb_refl (S754_finite ss ms es)); reflexivity.
Qed.

Lemma digits2_pos_iter m k :
  digits2_pos (Pos.iter xO m k) = (digits2_pos m + k)%positive.
Proof.
  induction k as [|k IH] using Pos.peano_ind.
  - cbn. lia.
  - rewrite Pos.iter_succ. cbn. rewrite IH. lia.
Qed.

Lemma digits2_pos_lower m : (2 ^ (Z.pos (digits2_pos m) - 1) <= Z.pos m)%Z.
Proof.
  induction m as [m IH|m IH|]; cbn [digits2_pos].
  - rewrite Pos2Z.inj_succ.
    replace (Z.succ (Z.pos (digits2_pos m)) - 1)%Z with (Z.succ (Z.pos (digits2_pos m) - 1))%Z by lia.
    rewrite Z.pow_succ_r by lia. lia.
  - rewrite Pos2Z.inj_succ.
    replace (Z.succ (Z.pos (digits2_pos m)) - 1)%Z with (Z.succ (Z.pos (digits2_pos m) - 1))%Z by lia.
    rewrite Z.pow_succ_r by lia. lia.
  - cbn. lia.
Qed.

Lemma digits2_pos_small m : (Z.pos m < 2 ^ 53)%Z -> (Z.pos (digits2_pos m) <= 53)%Z.
Proof.
  intros Hm. destruct (Z_le_gt_dec (Z.pos (digits2_pos m)) 53) as [|Hd]; [assumption|].
  exfalso. pose proof (digits2_pos_lower m) as Hl.
  assert (2 ^ 53 <= 2 ^ (Z.pos (digits2_pos m) - 1))%Z by (apply Z.pow_le_mono_r; lia).
  lia.
Qed.

Lemma binary_round_aux_exact sx m e :
  Z.pos (digits2_pos m) = 53%Z -> (-1074 <= e <= 971)%Z ->
  binary_round_aux prec emax sx (Z.pos m) e loc_Exact = S754_finite sx m e.
Proof.
  intros Hd He. unfold binary_round_aux, shr_fexp, fexp, emin, Zdigits2, prec, emax.
  rewrite Hd.
  replace (Z.max (53 + e - 53) (3 - 1024 - 53) - e)%Z with 0%Z by lia.
  cbn [shr shr_record_of_loc shr_m loc_of_shr_record round_nearest_even].
  rewrite Hd.
  replace (Z.max (53 + e - 53) (3 - 1024 - 53) - e)%Z with 0%Z by lia.
  cbn [shr shr_record_of_loc shr_m].
  destruct (Z.leb_spec e (1024 - 53)); [reflexivity | lia].
Qed.

Lemma binary_round_small sx m :
  (Z.pos m < 2 ^ 53)%Z ->
  exists m' e', binary_round prec emax sx m 0 = S754_finite sx m' e'
    /\ valid_binary (S754_finite sx m' e') = true.
Proof.
  intros Hm. apply digits2_pos_small in Hm.
  assert (Hpos : (0 < Z.pos (digits2_pos m))%Z) by lia.
  unfold binary_round, shl_align.
  unfold fexp at 1, emin, prec, emax.
  replace (Z.max (Z.pos (digits2_pos m) + 0 - 53) (3 - 1024 - 53) - 0)%Z
    with (Z.pos (digits2_pos m) - 53)%Z by lia.
  destruct (Z.pos (digits2_pos m) - 53)%Z as [|p|p] eqn:Ed; try lia.
  - exists m, 0%Z. split.
    + apply binary_round_aux_exact; lia.
    + unfold valid_binary, SpecFloat.valid_binary, bounded, canonical_mantissa, fexp, emin, prec, emax.
      apply andb_true_intro. split; [apply Z.eqb_eq; lia | reflexivity].
  - exists (Pos.iter xO m p), (Z.max (Z.pos (digits2_pos m) + 0 - 53) (3 - 1024 - 53)).
    assert (Hdig : Z.pos (digits2_pos (Pos.iter xO m p)) = 53%Z)
      by (rewrite digits2_pos_iter; lia).
    split.
    + apply binary_round_aux_exact; [assumption | lia].
    + unfold valid_binary, SpecFloat.valid_binary, bounded, canonical_mantissa, fexp, emin, prec, emax.
      rewrite Hdig.
      apply andb_true_intro. split; [apply Z.eqb_eq | apply Z.leb_le]; lia.
Qed.

Lemma py_float_small n :
  (n <> 0)%Z -> (Z.abs n < 2 ^ 53)%Z ->
  exists h, py_float n = Ret h /\ is_finite h = true /\ (h =? 0)%float = false
            /\ is_nan h = false.
Proof.
  intros Hn Hlt.
  assert (exists sx m' e', Prim2SF (of_int n) = S754_finite sx m' e')
    as (sx & m' & e' & Hp).
  { destruct n as [|m|m]; try lia.
    - destruct (binary_round_small false m Hlt) as (m' & e' & Hr & Hv).
      exists false, m', e'. unfold of_int, binary_normalize. rewrite Hr.
      apply Prim2SF_SF2Prim, Hv.
    - destruct (binary_round_small true m Hlt) as (m' & e' & Hr & Hv).
      exists true, m', e'. unfold of_int, binary_normalize. rewrite Hr.
      apply Prim2SF_SF2Prim, Hv. }
  exists (of_int n).
  assert (Hf : is_finite (of_int n) = true).
  { rewrite is_finite_spec, Hp. reflexivity. }
  repeat split.
  - unfold py_float. unfold is_finite in Hf.
    destruct (is_infinity (of_int n)); [|reflexivity].
    rewrite orb_true_r in Hf. discriminate.
  - assumption.
  - rewrite is_zero_spec, Hp. reflexivity.
  - rewrite is_nan_spec, Hp. reflexivity.
Qed.

Lemma py_float_zero : py_float 0 = Ret 0%float.
Proof. reflexivity. Qed.

(** ** The schedules *)

Lemma get_epsilon_formula s e p t fp ft :
  py_float p = Ret fp -> py_float t = Ret ft -> (ft =? 0)%float = false ->
  get_epsilon s e p t = Ret (s - (s - e) * (fp / ft))%float.
Proof.
  intros Hp Ht Hz. unfold get_epsilon, py_truediv. rewrite Ht, Hp. cbn.
  rewrite Hz. reflexivity.
Qed.

Lemma get_learning_rate_formula s e p t fp ft :
  py_float p = Ret fp -> py_float t = Ret ft -> (ft =? 0)%float = false ->
  get_learning_rate s e p t = Ret (s - (s - e) * (fp / ft))%float.
Proof.
  intros Hp Ht Hz. unfold get_learning_rate, py_truediv. rewrite Ht, Hp. cbn.
  rewrite Hz. reflexivity.
Qed.

Lemma py_float_bounded n :
  (Z.abs n < 2 ^ 53)%Z -> exists h, py_float n = Ret h /\ (n = 0%Z -> h = 0%float).
Proof.
  intros Hn. destruct (Z.eq_dec n 0%Z) as [->|Hne].
  - exists 0%float. split; [reflexivity | trivial].
  - destruct (py_float_small n Hne Hn) as (h & Hh & _). exists h. split; [assumption | tauto].
Qed.

(** C3, as amended.  Both schedules return
    [start - (start - end) * (progress / horizon)], every operation being
    the binary64 one, for every horizon in (0, 2^53) and every progress of
    magnitude below 2^53, inside [0, horizon] or not (no clamping).  At
    progress 0 the result is the number [start], provided [start - end] is
    finite. *)
Theorem schedules_interpolate (start end_ : float) (progress horizon : Z) :
  (0 < horizon < 2 ^ 53)%Z -> (Z.abs progress < 2 ^ 53)%Z ->
  exists fp fh,
    py_float progress = Ret fp /\ py_float horizon = Ret fh /\
    get_epsilon start end_ progress horizon
      = Ret (start - (start - end_) * (fp / fh))%float /\
    get_learning_rate start end_ progress horizon
      = Ret (start - (start - end_) * (fp / fh))%float /\
    (progress = 0%Z -> is_finite (start - end_) = true ->
     same_number (start - (start - end_) * (fp / fh)) start = true).
Proof.
  intros Hh Hp.
  destruct (py_float_small horizon) as (fh & Hfh & _ & Hz & Hnan); [lia | lia |].
  destruct (py_float_bounded progress Hp) as (fp & Hfp & Hzero).
  exists fp, fh. repeat split; try assumption.
  - now apply get_epsilon_formula.
  - now apply get_learning_rate_formula.
  - intros H0 Hfin. rewrite (Hzero H0). now apply schedule_at_zero.
Qed.

Lemma schedules_interpolate_witness :
  exists fp fh,
    py_float 0 = Ret fp /\ py_float 10 = Ret fh /\
    get_epsilon 1 0.1 0 10 = Ret (1 - (1 - 0.1) * (fp / fh))%float /\
    get_learning_rate 1 0.1 0 10 = Ret (1 - (1 - 0.1) * (fp / fh))%float /\
    (0 = 0 -> is_finite (1 - 0.1) = true ->
     same_number (1 - (1 - 0.1) * (fp / fh)) 1 = true)%Z.
Proof.
  apply (schedules_interpolate 1 0.1 0 10); [split; reflexivity | reflexivity].
Defined.

(** C3, as stated, fails at the end of the horizon: annealing from 1.0 to
    0.1 over 10 observations gives 0.09999999999999998 at observation 10,
    not 0.1. *)
Lemma schedule_end_not_exact :
  get_epsilon 1 0.1 10 10 = Ret 0.09999999999999998%float /\
  get_learning_rate 1 0.1 10 10 = Ret 0.09999999999999998%float /\
  (0.09999999999999998 =? 0.1)%float = false.
Proof. repeat split; vm_compute; reflexivity. Qed.

(** ** The agent's methods *)

Section AgentFacts.

Context {obs : Type} `{Countable obs} {R St : Type}.
Variable random : RandomSource (R := R).
Variable env : which -> Env (obs := obs) (R := R) (St := St).

Abbreviation World_ := (@world obs _ _ R St).
Abbreviation Event_ := (@event obs).

Lemma add_log_nil (w : World_) : add_log [] w = w.
Proof. destruct w. unfold add_log. cbn. now rewrite app_nil_r. Qed.

Lemma add_log_app (e1 e2 : list Event_) (w : World_) :
  add_log e2 (add_log e1 w) = add_log (e1 ++ e2) w.
Proof. unfold add_log. cbn. now rewrite app_assoc. Qed.

Lemma get_q_value_run o a (w : World_) :
  get_q_value o a w =
  (match w_table w !! (o, a) with
   | Some q => Ret q
   | None => Raise QValueNotFoundError
   end, add_log [TableGet o a] w).
Proof.
  unfold get_q_value, bind, emit. cbn. destruct (w_table w !! (o, a)); reflexivity.
Qed.

(** The value [update_table] computes, in the order the code adds and
    multiplies. *)
Lemma update_table_run gamma alpha o a r d o' a' (w : World_) :
  let target := td_target gamma r d (w_table w !! (o', a')) in
  let v := match w_table w !! (o, a) with
           | Some q => (alpha * target + q * (1 - alpha))%float
           | None => (alpha * target)%float
           end in
  update_table gamma alpha o a r d o' a' w =
  (Ret tt,
   set_table (<[(o, a) := v]> (w_table w))
     (add_log (CallUpdateTable alpha
               :: (if d then [] else [TableGet o' a'])
               ++ [TableGet o a; TableUpdate o a v]) w)).
Proof.
  unfold update_table, td_target, try_except_not_found, update_q_value, bind, ret.
  destruct d; cbn -[get_q_value].
  - rewrite get_q_value_run. cbn.
    destruct (w_table w !! (o, a)); cbn; unfold set_table, add_log; cbn;
      rewrite <- ?app_assoc; reflexivity.
  - rewrite get_q_value_run. cbn -[get_q_value].
    destruct (w_table w !! (o', a')); cbn -[get_q_value]; rewrite get_q_value_run; cbn;
      destruct (w_table w !! (o, a)); cbn; unfold set_table, add_log; cbn;
      rewrite <- ?app_assoc; reflexivity.
Qed.

(** C1.  [update_table] stores for the current pair
    [alpha * target + (1 - alpha) * old]: with [old] the prior estimate when
    there is one; and [alpha * target] when there is none, which is the
    same number as the formula at [old = 0] as soon as [1 - alpha] is
    finite.  The target is the reward alone when the transition is
    terminal, whatever the table holds for the next pair. *)
Theorem update_table_stores_blend gamma alpha o a r d o' a' (w : World_) :
  let old := w_table w !! (o, a) in
  let target := td_target gamma r d (w_table w !! (o', a')) in
  exists v w',
    update_table gamma alpha o a r d o' a' w = (Ret tt, w') /\
    w_table w' !! (o, a) = Some v /\
    (forall q, old = Some q -> v = blend alpha target q) /\
    (old = None ->
       v = (alpha * target)%float /\
       (is_finite (1 - alpha) = true -> same_number v (blend alpha target 0) = true)) /\
    (d = true -> target = r).
Proof.
  intros old target. eexists _, _. split; [apply update_table_run|].
  cbn. rewrite lookup_insert_eq. split; [reflexivity|].
  fold old target. repeat split.
  - intros q ->. unfold blend. now rewrite (float_mul_comm q).
  - now rewrite H0.
  - intros Hfin. rewrite H0. unfold blend, same_number.
    pose proof (same_number_add_mul_zero (alpha * target) (1 - alpha) Hfin) as Hs.
    unfold same_number in Hs.
    destruct (float_eqb_iff (alpha * target + (1 - alpha) * 0) (alpha * target)) as [Hi _].
    destruct ((alpha * target + (1 - alpha) * 0 =? alpha * target)%float) eqn:E.
    + rewrite (float_eqb_sym _ _ E). reflexivity.
    + cbn in Hs. apply andb_true_iff in Hs as [Hn1 Hn2]. rewrite Hn1, Hn2.
      apply orb_true_r.
  - intros ->. reflexivity.
Qed.

(** C8.  A call to [update_table] makes one write, the update of the
    current pair: it returns, the table afterwards is the table before
    with the current pair set to the value [v] that the call computed, so
    that no other key changes, and its table calls are, in this order, the
    lookup of the next pair (on a non-terminal transition only), the
    lookup of the current pair, and the one update of the current pair
    with [v]. *)
Theorem update_table_one_write gamma alpha o a r d o' a' (w : World_) :
  let target := td_target gamma r d (w_table w !! (o', a')) in
  let v := match w_table w !! (o, a) with
           | Some q => (alpha * target + q * (1 - alpha))%float
           | None => (alpha * target)%float
           end in
  let result := update_table gamma alpha o a r d o' a' w in
  exists events,
    fst result = Ret tt /\
    w_table (snd result) = <[(o, a) := v]> (w_table w) /\
    (forall k, k <> (o, a) -> w_table (snd result) !! k = w_table w !! k) /\
    w_log (snd result) = w_log w ++ events /\
    List.filter is_table_call events
      = (if d then [] else [TableGet o' a']) ++ [TableGet o a; TableUpdate o a v] /\
    List.filter is_table_write events = [TableUpdate o a v].
Proof.
  cbn zeta. rewrite update_table_run. eexists. cbn [fst snd].
  split; [reflexivity|]. split; [reflexivity|]. split.
  - intros k Hk. cbn. now apply lookup_insert_ne.
  - split; [reflexivity|]. destruct d; split; reflexivity.
Qed.

(** C10.  [update_table] writes unconditionally.  Whether the current
    pair had an estimate or not, and whatever the value [v] it computed
    (a zero, or the prior estimate again), the last call of
    [update_table] is the update of the current pair with [v], its only
    write, and the table afterwards is the table before with the current
    pair set to [v]; so the pair is present afterwards.  With learning
    rate 0, no prior estimate and a finite target, a pair that was absent
    now stores a zero. *)
Theorem update_table_always_writes gamma alpha o a r d o' a' (w : World_) :
  let w' := snd (update_table gamma alpha o a r d o' a' w) in
  let target := td_target gamma r d (w_table w !! (o', a')) in
  let v := match w_table w !! (o, a) with
           | Some q => (alpha * target + q * (1 - alpha))%float
           | None => (alpha * target)%float
           end in
  (exists events,
     w_log w' = w_log w ++ events ++ [TableUpdate o a v] /\
     List.filter is_table_write events = []) /\
  w_table w' = <[(o, a) := v]> (w_table w) /\
  w_table w' !! (o, a) = Some v /\
  is_Some (w_table w' !! (o, a)) /\
  (w_table w !! (o, a) = None -> alpha = 0%float ->
   is_finite (td_target gamma r d (w_table w !! (o', a'))) = true ->
   exists v, w_table w' !! (o, a) = Some v /\ (v =? 0)%float = true).
Proof.
  cbn zeta. rewrite update_table_run. cbn [snd]. split.
  - exists (CallUpdateTable alpha :: (if d then [] else [TableGet o' a']) ++ [TableGet o a]).
    split.
    + cbn [set_table add_log w_log app]. rewrite <- app_assoc. reflexivity.
    + destruct d; reflexivity.
  - cbn. rewrite lookup_insert_eq. split; [reflexivity|]. split; [reflexivity|].
    split; [eauto|].
    intros -> -> Hfin. eexists. split; [reflexivity|]. now apply zero_mul_finite.
Qed.

(** *** [max] *)

Lemma fold_max_spec (rest : list float) (best : float) :
  is_nan best = false ->
  Forall (fun v => is_nan v = false) rest ->
  let m := fold_left (fun best y => if (best <? y)%float then y else best) rest best in
  (m = best \/ In m rest) /\ (best <=? m)%float = true /\
  Forall (fun v => (v <=? m)%float = true) rest.
Proof.
  revert best. induction rest as [|y rest IH]; intros best Hb Hrest; cbn.
  - repeat split; auto. apply float_eqb_leb, float_eqb_refl, Hb.
  - inversion Hrest as [|? ? Hy Hrest']; subst.
    set (b' := if (best <? y)%float then y else best).
    assert (Hb' : is_nan b' = false) by (unfold b'; destruct (best <? y)%float; assumption).
    assert (Hbest : (best <=? b')%float = true).
    { unfold b'. destruct (best <? y)%float eqn:E.
      - now apply float_ltb_leb.
      - apply float_eqb_leb, float_eqb_refl, Hb. }
    assert (Hyb : (y <=? b')%float = true).
    { unfold b'. destruct (best <? y)%float eqn:E.
      - apply float_eqb_leb, float_eqb_refl, Hy.
      - now apply float_ltb_false_leb. }
    destruct (IH b' Hb' Hrest') as (Hin & Hle & Hall).
    repeat split.
    + destruct Hin as [Hin|Hin]; [|auto].
      rewrite Hin. unfold b'. destruct (best <? y)%float; auto.
    + eapply float_leb_trans; eassumption.
    + constructor; [eapply float_leb_trans; eassumption | assumption].
Qed.

Lemma py_max_spec (values : list float) :
  values <> [] ->
  Forall (fun v => is_nan v = false) values ->
  exists m, py_max values = Ret m /\ In m values /\
            Forall (fun v => (v <=? m)%float = true) values.
Proof.
  destruct values as [|x rest]; [congruence|]. intros _ Hall.
  inversion Hall as [|? ? Hx Hrest]; subst.
  destruct (fold_max_spec rest x Hx Hrest) as (Hin & Hle & Hall').
  eexists. split; [reflexivity|]. split.
  - destruct Hin as [->|Hin]; [left; reflexivity | right; assumption].
  - constructor; assumption.
Qed.

(** *** [get_action] *)

Lemma q_values_for_run o actions (w : World_) :
  q_values_for o actions w =
  (Ret (map (fun a => (a, estimate (w_table w) o a)) actions),
   add_log (map (TableGet o) actions) w).
Proof.
  revert w. induction actions as [|a rest IH]; intros w; cbn [q_values_for map].
  - unfold ret. now rewrite add_log_nil.
  - unfold bind, try_except_not_found. rewrite get_q_value_run.
    unfold estimate at 1.
    destruct (w_table w !! (o, a)) as [q|]; cbn -[q_values_for];
      rewrite IH; cbn; rewrite add_log_app; reflexivity.
Qed.

(** The tied list the code builds, read off the table. *)
Lemma tied_list_filter (g : nat -> float) (m : float) (l : list nat) :
  map fst (List.filter (fun item : nat * float => (snd item =? m)%float)
             (map (fun a => (a, g a)) l))
  = List.filter (fun a => (g a =? m)%float) l.
Proof.
  induction l as [|a l IH]; cbn; [reflexivity|].
  destruct (g a =? m)%float; cbn; now rewrite IH.
Qed.

Lemma get_action_run h o eps (w : World_) :
  let u := fst (random_random random (w_random w)) in
  let r1 := snd (random_random random (w_random w)) in
  let n := action_space_n (env h) in
  get_action random env h o eps w =
  if (u <? eps)%float then
    (Ret (fst (action_space_sample (env h) r1)),
     set_random (snd (action_space_sample (env h) r1))
       (add_log [CallGetAction h eps; SpaceSample h] w))
  else
    let w1 := set_random r1
                (add_log (CallGetAction h eps :: map (TableGet o) (seq 0 n)) w) in
    match py_max (map (estimate (w_table w) o) (seq 0 n)) with
    | Ret m =>
        random_choice random
          (List.filter (fun a => (estimate (w_table w) o a =? m)%float) (seq 0 n)) w1
    | Raise e => (Raise e, w1)
    | OutOfFuel => (OutOfFuel, w1)
    end.
Proof.
  intros u r1 n. unfold get_action, bind, emit, random_random_. cbn -[q_values_for].
  subst u r1. destruct (random_random random (w_random w)) as [u r1]. cbn -[q_values_for].
  destruct (u <? eps)%float.
  - unfold sample, bind, emit. cbn.
    destruct (action_space_sample (env h) r1) as [a r2]. cbn.
    unfold set_random, add_log. cbn. now rewrite <- app_assoc.
  - rewrite q_values_for_run. cbn -[py_max]. fold n.
    rewrite map_map. cbn -[py_max]. unfold lift.
    assert (Hw : set_random r1 (add_log (CallGetAction h eps :: map (TableGet o) (seq 0 n)) w)
                 = add_log (map (TableGet o) (seq 0 n))
                     (set_random r1 (add_log [CallGetAction h eps] w))).
    { unfold set_random, add_log. cbn. now rewrite <- app_assoc. }
    cbn zeta. rewrite Hw.
    destruct (py_max (map (fun x => estimate (w_table w) o x) (seq 0 n))) as [m| |];
      try reflexivity.
    now rewrite tied_list_filter.
Qed.

Lemma estimates_not_nan (t : gmap (obs * nat) float) (o : obs) (n : nat) :
  (forall a, a < n -> is_nan (estimate t o a) = false) ->
  Forall (fun v => is_nan v = false) (map (estimate t o) (seq 0 n)).
Proof.
  intros Hnan. apply List.Forall_forall. intros v Hv.
  apply in_map_iff in Hv as (a & <- & Ha). apply in_seq in Ha. apply Hnan. lia.
Qed.

(** With at least one action and no NaN among the estimates, [max] returns
    one of them and the tied list of the code is the list of the actions
    that attain the maximum. *)
Lemma tied_is_greedy (t : gmap (obs * nat) float) (o : obs) (n : nat) :
  1 <= n ->
  (forall a, a < n -> is_nan (estimate t o a) = false) ->
  exists m,
    py_max (map (estimate t o) (seq 0 n)) = Ret m /\
    List.filter (fun a => (estimate t o a =? m)%float) (seq 0 n) = greedy_actions t o n /\
    greedy_actions t o n <> [].
Proof.
  intros Hn Hnan.
  destruct (py_max_spec (map (estimate t o) (seq 0 n))) as (m & Hm & Hin & Hall).
  { destruct n; [lia|]. cbn. congruence. }
  { now apply estimates_not_nan. }
  apply in_map_iff in Hin as (k & Hk & Hkin). apply in_seq in Hkin.
  assert (Hle : forall b, b < n -> (estimate t o b <=? m)%float = true).
  { intros b Hb. rewrite List.Forall_forall in Hall. apply Hall, in_map, in_seq. lia. }
  assert (Heq : forall a, In a (seq 0 n) ->
            (estimate t o a =? m)%float
            = forallb (fun b => (estimate t o b <=? estimate t o a)%float) (seq 0 n)).
  { intros a Ha. apply in_seq in Ha.
    destruct (estimate t o a =? m)%float eqn:E; symmetry.
    - apply forallb_forall. intros b Hb. apply in_seq in Hb.
      apply float_leb_trans with m; [apply Hle; lia|].
      now apply float_eqb_leb, float_eqb_sym.
    - apply not_true_is_false. intros Hf. rewrite forallb_forall in Hf.
      assert (E' : (estimate t o a =? m)%float = true); [|congruence].
      apply float_leb_antisym; [apply Hle; lia|].
      rewrite <- Hk. apply Hf, in_seq. lia. }
  exists m. split; [assumption|]. split.
  - unfold greedy_actions. now apply List.filter_ext_in.
  - unfold greedy_actions. rewrite <- (List.filter_ext_in _ _ _ Heq).
    intros Hnil.
    assert (Hkin' : In k (List.filter (fun a => (estimate t o a =? m)%float) (seq 0 n))).
    { apply filter_In. split; [apply in_seq; lia|].
      rewrite Hk. apply float_eqb_refl. rewrite <- Hk. apply Hnan. lia. }
    rewrite Hnil in Hkin'. inversion Hkin'.
Qed.

Lemma greedy_actions_spec (t : gmap (obs * nat) float) (o : obs) (n a : nat) :
  In a (greedy_actions t o n) <->
  a < n /\ forall b, b < n -> (estimate t o b <=? estimate t o a)%float = true.
Proof.
  unfold greedy_actions. rewrite filter_In, forallb_forall, in_seq. split.
  - intros [Ha Hall]. split; [lia|]. intros b Hb. apply Hall, in_seq. lia.
  - intros [Ha Hall]. split; [lia|]. intros b Hb. apply Hall. apply in_seq in Hb. lia.
Qed.

Lemma greedy_actions_NoDup (t : gmap (obs * nat) float) (o : obs) (n : nat) :
  List.NoDup (greedy_actions t o n).
Proof. unfold greedy_actions. apply List.NoDup_filter, List.seq_NoDup. Qed.

Lemma greedy_actions_unknown (t : gmap (obs * nat) float) (o : obs) (n : nat) :
  (forall a, a < n -> t !! (o, a) = None) -> greedy_actions t o n = seq 0 n.
Proof.
  intros Hnone. unfold greedy_actions.
  rewrite (List.filter_ext_in _ (fun _ => true)).
  - induction (seq 0 n) as [|x l IH]; cbn; congruence.
  - intros a Ha. apply in_seq in Ha. apply forallb_forall. intros b Hb. apply in_seq in Hb.
    unfold estimate. rewrite !Hnone by lia. reflexivity.
Qed.

Lemma singleton_list (l : list nat) (k : nat) :
  List.NoDup l -> (forall a, In a l <-> a = k) -> l = [k].
Proof.
  intros Hnd Hin. destruct l as [|x l].
  - exfalso. destruct (Hin k) as [_ Hk]. now apply Hk.
  - assert (x = k) as -> by (apply Hin; now left).
    destruct l as [|y l]; [reflexivity|]. exfalso.
    assert (y = k) as -> by (apply Hin; right; now left).
    inversion Hnd as [|? ? Hnot _]. apply Hnot. now left.
Qed.

Lemma greedy_actions_unique (t : gmap (obs * nat) float) (o : obs) (n k : nat) :
  k < n ->
  is_nan (estimate t o k) = false ->
  (forall b, b < n -> b <> k -> (estimate t o b <? estimate t o k)%float = true) ->
  greedy_actions t o n = [k].
Proof.
  intros Hk Hnan Hlt. apply singleton_list; [apply greedy_actions_NoDup|].
  intros a. rewrite greedy_actions_spec. split.
  - intros [Ha Hall]. destruct (Nat.eq_dec a k) as [|Hne]; [assumption|].
    exfalso. eapply float_ltb_not_leb; [apply (Hlt a Ha Hne) | apply Hall, Hk].
  - intros ->. split; [assumption|]. intros b Hb.
    destruct (Nat.eq_dec b k) as [->|Hne].
    + now apply float_eqb_leb, float_eqb_refl.
    + now apply float_ltb_leb, Hlt.
Qed.

Lemma random_choice_run (l : list nat) (w : World_) :
  l <> [] ->
  random_choice random l w =
  (match nth_error l (fst (random_below random (length l) (w_random w))) with
   | Some a => Ret a
   | None => Raise IndexError
   end,
   set_random (snd (random_below random (length l) (w_random w))) w).
Proof.
  intros Hl. destruct l as [|x l]; [congruence|]. unfold random_choice.
  destruct (random_below random (length (x :: l)) (w_random w)) as [i r]. cbn [fst snd].
  destruct (nth_error (x :: l) i); reflexivity.
Qed.

Lemma nth_error_nth_lt (l : list nat) (i : nat) :
  i < length l -> nth_error l i = Some (nth i l 0).
Proof.
  revert i. induction l as [|x l IH]; intros [|i] Hi; cbn in *; try lia; [reflexivity|].
  apply IH. lia.
Qed.

(** The exploitation branch when no estimate is NaN: the action at the
    drawn index of the list of maximising actions. *)
Lemma get_action_exploit h o eps (w : World_) :
  let t := w_table w in
  let n := action_space_n (env h) in
  let u := fst (random_random random (w_random w)) in
  let r1 := snd (random_random random (w_random w)) in
  let tied := greedy_actions t o n in
  let draw := random_below random (length tied) r1 in
  (u <? eps)%float = false ->
  1 <= n ->
  (forall a, a < n -> is_nan (estimate t o a) = false) ->
  get_action random env h o eps w =
  (match nth_error tied (fst draw) with Some a => Ret a | None => Raise IndexError end,
   set_random (snd draw)
     (add_log (CallGetAction h eps :: map (TableGet o) (seq 0 n)) w)).
Proof.
  intros t n u r1 tied draw Hu Hn Hnan.
  pose proof (get_action_run h o eps w) as Hrun. cbn zeta in Hrun.
  fold u r1 n t in Hrun. rewrite Hu in Hrun.
  destruct (tied_is_greedy t o n Hn Hnan) as (m & Hm & Htied & Hne).
  rewrite Hm, Htied in Hrun. rewrite Hrun.
  rewrite random_choice_run by assumption. reflexivity.
Qed.

(** C2, as amended.  With at least one action and no NaN among the
    estimates of the observation (an unknown estimate counts as 0), the
    exploitation branch returns the action at a drawn index of the list of
    the actions attaining the maximum, a list without repetition; that
    list is all of [0, n) when every estimate is unknown; and when one
    action is strictly better than every other one, [get_action] with
    epsilon 0 returns it. *)
Theorem greedy_exploitation h o eps (w : World_) :
  let t := w_table w in
  let n := action_space_n (env h) in
  let u := fst (random_random random (w_random w)) in
  let r1 := snd (random_random random (w_random w)) in
  let tied := greedy_actions t o n in
  let i := fst (random_below random (length tied) r1) in
  1 <= n ->
  (forall a, a < n -> is_nan (estimate t o a) = false) ->
  (forall len r, 0 < len -> fst (random_below random len r) < len) ->
  tied <> [] /\ List.NoDup tied /\
  (forall a, In a tied <->
     a < n /\ forall b, b < n -> (estimate t o b <=? estimate t o a)%float = true) /\
  ((forall a, a < n -> t !! (o, a) = None) -> tied = seq 0 n) /\
  ((u <? eps)%float = false ->
     i < length tied /\
     fst (get_action random env h o eps w) = Ret (nth i tied 0)) /\
  (forall k, k < n ->
     (forall b, b < n -> b <> k -> (estimate t o b <? estimate t o k)%float = true) ->
     (0 <=? u)%float = true ->
     fst (get_action random env h o 0 w) = Ret k).
Proof.
  intros t n u r1 tied i Hn Hnan Hbelow.
  destruct (tied_is_greedy t o n Hn Hnan) as (m & _ & _ & Hne).
  assert (Hlen : 0 < length tied).
  { unfold tied. destruct (greedy_actions t o n); [congruence | cbn; lia]. }
  split; [assumption|]. split; [apply greedy_actions_NoDup|].
  split; [apply greedy_actions_spec|]. split; [apply greedy_actions_unknown|]. split.
  - intros Hu. assert (Hi : i < length tied) by (apply Hbelow, Hlen).
    split; [assumption|].
    rewrite (get_action_exploit h o eps w Hu Hn Hnan). cbn [fst].
    fold t n r1 tied i. now rewrite nth_error_nth_lt.
  - intros k Hk Hlt Hu0.
    assert (Hu : (u <? 0)%float = false) by now apply float_leb_ltb_false.
    rewrite (get_action_exploit h o 0 w Hu Hn Hnan). cbn [fst].
    fold t n r1 tied.
    assert (Htied : tied = [k]) by (apply greedy_actions_unique; auto).
    rewrite Htied. cbn [length].
    assert (Hi : fst (random_below random 1 r1) < 1) by (apply Hbelow; lia).
    destruct (fst (random_below random 1 r1)); [reflexivity | lia].
Qed.

(** C4, as amended.  With at least one action, no NaN among the estimates
    of the observation, and a random source and an action space that keep
    their contracts, [get_action] returns an action of [0, n), a missing
    estimate raising nothing; it explores exactly when the uniform sample
    is below epsilon, so never with epsilon 0. *)
Theorem get_action_in_range h o eps (w : World_) :
  let t := w_table w in
  let n := action_space_n (env h) in
  let u := fst (random_random random (w_random w)) in
  1 <= n ->
  (forall a, a < n -> is_nan (estimate t o a) = false) ->
  (forall len r, 0 < len -> fst (random_below random len r) < len) ->
  (forall r, fst (action_space_sample (env h) r) < n) ->
  exists a w',
    get_action random env h o eps w = (Ret a, w') /\ a < n /\
    w_log w' = w_log w ++ (if (u <? eps)%float
                           then [CallGetAction h eps; SpaceSample h]
                           else CallGetAction h eps :: map (TableGet o) (seq 0 n)) /\
    (eps = 0%float -> (0 <=? u)%float = true -> (u <? eps)%float = false).
Proof.
  intros t n u Hn Hnan Hbelow Hsample.
  assert (Hzero : eps = 0%float -> (0 <=? u)%float = true -> (u <? eps)%float = false).
  { intros -> Hu. now apply float_leb_ltb_false. }
  destruct (u <? eps)%float eqn:Hu.
  - pose proof (get_action_run h o eps w) as Hrun. cbn zeta in Hrun.
    fold u in Hrun. rewrite Hu in Hrun.
    eexists _, _. split; [exact Hrun|]. split; [apply Hsample|]. split; [reflexivity|].
    assumption.
  - pose proof (get_action_exploit h o eps w Hu Hn Hnan) as Hrun. cbn zeta in Hrun.
    fold t n in Hrun.
    destruct (tied_is_greedy t o n Hn Hnan) as (m & _ & _ & Hne).
    set (tied := greedy_actions t o n) in *.
    set (i := fst (random_below random (length tied)
                     (snd (random_random random (w_random w))))) in *.
    assert (Hi : i < length tied).
    { apply Hbelow. clearbody tied. destruct tied; [congruence | cbn; lia]. }
    rewrite (nth_error_nth_lt _ _ Hi) in Hrun.
    eexists _, _. split; [exact Hrun|]. split.
    + assert (Hin : In (nth i tied 0) tied) by now apply nth_In.
      apply greedy_actions_spec in Hin. tauto.
    + split; [reflexivity | assumption].
Qed.

(** *** What [get_action] leaves alone *)

Lemma get_action_frame h o eps (w : World_) :
  let result := get_action random env h o eps w in
  fst result <> OutOfFuel /\
  w_table (snd result) = w_table w /\
  w_learning (snd result) = w_learning w /\
  w_testing (snd result) = w_testing w /\
  exists events,
    w_log (snd result) = w_log w ++ events /\
    (events = [CallGetAction h eps; SpaceSample h] \/
     events = CallGetAction h eps :: map (TableGet o) (seq 0 (action_space_n (env h)))).
Proof.
  cbn zeta. pose proof (get_action_run h o eps w) as Hrun. cbn zeta in Hrun.
  rewrite Hrun. clear Hrun.
  destruct (_ <? eps)%float.
  - cbn. repeat split; try congruence. eexists. split; [reflexivity | now left].
  - destruct (py_max _) as [m| |] eqn:Hmax.
    + destruct (List.filter _ _) as [|x l] eqn:Hl.
      * cbn. repeat split; try congruence. eexists. split; [reflexivity | now right].
      * rewrite random_choice_run by congruence. cbn.
        repeat split.
        -- destruct (nth_error _ _); congruence.
        -- eexists. split; [reflexivity | now right].
    + cbn. repeat split; try congruence. eexists. split; [reflexivity | now right].
    + exfalso. destruct (map _ _); discriminate.
Qed.

Lemma table_calls_of_gets (o : obs) (l : list nat) :
  List.filter is_table_call (map (TableGet o) l) = map (TableGet o) l /\
  List.filter is_table_write (map (TableGet o) l) = @nil Event_.
Proof. induction l as [|a l [IH1 IH2]]; cbn; [split; reflexivity|]. now rewrite IH1, IH2. Qed.

Lemma evaluation_event_gets (h : which) (o : obs) (l : list nat) :
  Forall (fun e => evaluation_event h e = true) (map (TableGet o) l).
Proof. induction l; cbn; constructor; auto. Qed.

Lemma which_eqb_refl h : which_eqb h h = true.
Proof. destruct h; reflexivity. Qed.

Lemma evaluation_event_quiet (h : which) (events : list Event_) :
  Forall (fun e => evaluation_event h e = true) events ->
  List.filter is_table_write events = [] /\ learning_rates events = [].
Proof.
  induction 1 as [|e l He _ [IH1 IH2]]; [split; reflexivity|].
  destruct e; cbn in *; try discriminate; auto.
Qed.

Lemma no_nan_estimate (t : gmap (obs * nat) float) (o : obs) (a : nat) :
  no_nan t -> is_nan (estimate t o a) = false.
Proof.
  intros Ht. unfold estimate. destruct (t !! (o, a)) as [v|] eqn:E; cbn.
  - eapply Ht, E.
  - reflexivity.
Qed.

Lemma get_action_returns h o eps (w : World_) :
  1 <= action_space_n (env h) ->
  no_nan (w_table w) ->
  (forall len r, 0 < len -> fst (random_below random len r) < len) ->
  exists a, fst (get_action random env h o eps w) = Ret a.
Proof.
  intros Hn Hnan Hbelow.
  pose proof (get_action_run h o eps w) as Hrun. cbn zeta in Hrun.
  destruct (_ <? eps)%float eqn:Hu.
  - rewrite Hrun. eexists. reflexivity.
  - clear Hrun.
    assert (Hest : forall a, a < action_space_n (env h) ->
                     is_nan (estimate (w_table w) o a) = false)
      by (intros; now apply no_nan_estimate).
    rewrite (get_action_exploit h o eps w Hu Hn Hest). cbn [fst].
    destruct (tied_is_greedy (w_table w) o _ Hn Hest) as (m & _ & _ & Hne).
    rewrite nth_error_nth_lt; [eexists; reflexivity|].
    apply Hbelow. destruct (greedy_actions _ _ _); [congruence | cbn; lia].
Qed.

(** *** The evaluation loop *)

Lemma rewards_of_app (e1 e2 : list Event_) :
  rewards_of (e1 ++ e2) = rewards_of e1 ++ rewards_of e2.
Proof. apply flat_map_app. Qed.

Lemma rewards_of_gets (o : obs) (l : list nat) : rewards_of (map (TableGet o) l) = [].
Proof. induction l; cbn; auto. Qed.

Lemma filter_reset_gets (o : obs) (l : list nat) :
  List.filter is_reset (map (TableGet o) l) = @nil Event_.
Proof. induction l; cbn; auto. Qed.

(** One step of an episode of the evaluation: what is known of the world
    after the rendering, the action selection and the [step] call. *)
Lemma evaluation_step h eps (rnd : bool) o (w : World_) :
  let w0 := if rnd then add_log [EnvRender h] w else w in
  let ra := get_action random env h o eps w0 in
  w_table (snd ra) = w_table w /\
  env_state h (snd ra) = env_state h w /\
  exists events,
    w_log (snd ra) = w_log w ++ events /\
    Forall (fun e => evaluation_event h e = true) events /\
    List.filter is_reset events = [] /\
    rewards_of events = [].
Proof.
  cbn zeta.
  set (w0 := if rnd then add_log [EnvRender h] w else w).
  destruct (get_action_frame h o eps w0) as (_ & Ht & Hl & Hte & evs & Hlog & Hevs).
  assert (Hw0 : w_table w0 = w_table w /\ w_learning w0 = w_learning w /\
                w_testing w0 = w_testing w /\
                w_log w0 = w_log w ++ (if rnd then [EnvRender h] else [])).
  { unfold w0. destruct rnd; cbn; rewrite ?app_nil_r; auto. }
  destruct Hw0 as (Ht0 & Hl0 & Hte0 & Hlog0).
  split; [congruence|]. split.
  { clearbody w0. unfold env_state. destruct h; congruence. }
  exists ((if rnd then [EnvRender h] else []) ++ evs).
  rewrite Hlog, Hlog0, <- app_assoc. split; [reflexivity|].
  assert (Hev : Forall (fun e => evaluation_event h e = true) evs /\
                List.filter is_reset evs = [] /\ rewards_of evs = []).
  { destruct Hevs as [-> | ->].
    - repeat split. repeat constructor; cbn; apply which_eqb_refl.
    - split; [|split].
      + constructor; [apply which_eqb_refl | apply evaluation_event_gets].
      + apply (filter_reset_gets o).
      + apply (rewards_of_gets o). }
  destruct Hev as (He1 & He2 & He3).
  destruct rnd; cbn; repeat split; auto.
  constructor; [apply which_eqb_refl | assumption].
Qed.

Lemma render_run h (rnd : bool) (w : World_) :
  (if rnd then render h else ret tt) w
  = (Ret tt, if rnd then add_log [EnvRender h] w else w).
Proof. destruct rnd; reflexivity. Qed.

Lemma step_run h a (w : World_) :
  step env h a w =
  (Ret (fst (env_step (env h) a (env_state h w))),
   add_log [EnvStep h a (snd (fst (fst (env_step (env h) a (env_state h w)))))
                    (snd (fst (env_step (env h) a (env_state h w))))]
     (set_env_state h (snd (env_step (env h) a (env_state h w))) w)).
Proof.
  unfold step. destruct (env_step (env h) a (env_state h w)) as [[[o' r] d] s']. reflexivity.
Qed.

Lemma set_env_state_frame h s (w : World_) :
  w_table (set_env_state h s w) = w_table w /\
  w_log (set_env_state h s w) = w_log w /\
  w_random (set_env_state h s w) = w_random w /\
  env_state h (set_env_state h s w) = s.
Proof. destruct h; cbn; auto. Qed.

Lemma test_episode_unfold fuel h eps (rnd : bool) o total (w : World_) :
  test_episode random env (S fuel) h eps rnd o total w =
  match get_action random env h o eps (if rnd then add_log [EnvRender h] w else w) with
  | (Ret a, w1) =>
      let '(o', r, d, s') := env_step (env h) a (env_state h w1) in
      let w2 := add_log [EnvStep h a r d] (set_env_state h s' w1) in
      if d then (Ret (total + r)%float, w2)
      else test_episode random env fuel h eps rnd o' (total + r)%float w2
  | (Raise e, w1) => (Raise e, w1)
  | (OutOfFuel, w1) => (OutOfFuel, w1)
  end.
Proof.
  cbn [test_episode]. unfold bind at 1. rewrite render_run. unfold bind at 1.
  destruct (get_action random env h o eps _) as [[a|e|] w1]; try reflexivity.
  unfold bind at 1. rewrite step_run.
  destruct (env_step (env h) a (env_state h w1)) as [[[o' r] d] s'].
  destruct d; reflexivity.
Qed.

Lemma test_episode_trace fuel h eps (rnd : bool) o total (w : World_) :
  let result := test_episode random env fuel h eps rnd o total w in
  w_table (snd result) = w_table w /\
  exists events,
    w_log (snd result) = w_log w ++ events /\
    Forall (fun e => evaluation_event h e = true) events /\
    List.filter is_reset events = [] /\
    (forall total', fst result = Ret total' ->
       total' = fold_left (fun t r => (t + r)%float) (rewards_of events) total) /\
    (1 <= action_space_n (env h) -> no_nan (w_table w) ->
     (forall len r, 0 < len -> fst (random_below random len r) < len) ->
     forall e, fst result <> Raise e).
Proof.
  cbn zeta. revert o total w. induction fuel as [|fuel IH]; intros o total w.
  - cbn. split; [reflexivity|]. exists []. rewrite app_nil_r.
    repeat split; auto; intros; discriminate.
  - rewrite test_episode_unfold.
    pose proof (evaluation_step h eps rnd o w) as Hs. cbn zeta in Hs.
    destruct Hs as (Ht & Hst & evs & Hlog & Hev & Hres & Hrew).
    set (w0 := if rnd then add_log [EnvRender h] w else w) in *.
    assert (Hga : 1 <= action_space_n (env h) -> no_nan (w_table w) ->
                  (forall len r, 0 < len -> fst (random_below random len r) < len) ->
                  exists a, fst (get_action random env h o eps w0) = Ret a).
    { intros Hn Hnan Hb. apply get_action_returns; auto.
      unfold w0. destruct rnd; exact Hnan. }
    destruct (get_action random env h o eps w0) as [[a|e|] w1] eqn:Ea; cbn [fst snd] in *.
    + destruct (env_step (env h) a (env_state h w1)) as [[[o' r] d] s'] eqn:Estep.
      destruct (set_env_state_frame h s' w1) as (Ht2 & Hlog2 & _ & _).
      cbn zeta. destruct d.
      * cbn [fst snd add_log w_table w_log]. split; [congruence|].
        exists (evs ++ [EnvStep h a r true]).
        rewrite Hlog2, Hlog, <- app_assoc. split; [reflexivity|].
        split; [apply Forall_app; split; [assumption|]; repeat constructor; cbn;
                apply which_eqb_refl|].
        split; [rewrite List.filter_app, Hres; reflexivity|].
        split; [|intros; discriminate].
        intros total' [= <-]. rewrite rewards_of_app, Hrew. reflexivity.
      * specialize (IH o' (total + r)%float
                      (add_log [EnvStep h a r false] (set_env_state h s' w1))).
        destruct IH as (IHt & evs' & IHlog & IHev & IHres & IHrew & IHraise).
        split; [rewrite IHt; cbn; congruence|].
        exists (evs ++ EnvStep h a r false :: evs').
        rewrite IHlog. cbn [add_log w_log]. rewrite Hlog2, Hlog, <- !app_assoc.
        split; [reflexivity|].
        split; [apply Forall_app; split; [assumption|]; constructor;
                [cbn; apply which_eqb_refl | assumption]|].
        split; [rewrite List.filter_app, Hres; cbn; assumption|].
        split.
        -- intros total' Htot. rewrite rewards_of_app, Hrew. cbn. now apply IHrew.
        -- intros Hn Hnan Hb. apply IHraise; auto. cbn. rewrite Ht2, Ht. exact Hnan.
    + split; [assumption|]. exists evs. repeat split; auto; try (intros; discriminate).
      intros Hn Hnan Hb. destruct (Hga Hn Hnan Hb) as [a Ha]. discriminate.
    + split; [assumption|]. exists evs. repeat split; auto; intros; discriminate.
Qed.

Lemma reset_run h (w : World_) :
  reset env h w =
  (Ret (fst (env_reset (env h) (env_state h w))),
   set_env_state h (snd (env_reset (env h) (env_state h w))) (add_log [EnvReset h] w)).
Proof.
  unfold reset, bind, emit.
  replace (env_state h (add_log [EnvReset h] w)) with (env_state h w)
    by (destruct h; reflexivity).
  destruct (env_reset (env h) (env_state h w)) as [o s]. reflexivity.
Qed.

Lemma test_episodes_unfold fuel h eps (rnd : bool) k total (w : World_) :
  test_episodes random env fuel h eps rnd (S k) total w =
  match test_episode random env fuel h eps rnd
          (fst (env_reset (env h) (env_state h w))) total
          (set_env_state h (snd (env_reset (env h) (env_state h w)))
             (add_log [EnvReset h] w)) with
  | (Ret t, w2) => test_episodes random env fuel h eps rnd k t w2
  | (Raise e, w2) => (Raise e, w2)
  | (OutOfFuel, w2) => (OutOfFuel, w2)
  end.
Proof.
  cbn [test_episodes]. unfold bind at 1. rewrite reset_run. unfold bind at 1.
  reflexivity.
Qed.

Lemma test_episodes_trace fuel h eps (rnd : bool) k total (w : World_) :
  let result := test_episodes random env fuel h eps rnd k total w in
  w_table (snd result) = w_table w /\
  exists events,
    w_log (snd result) = w_log w ++ events /\
    Forall (fun e => evaluation_event h e = true) events /\
    (forall total', fst result = Ret total' ->
       total' = fold_left (fun t r => (t + r)%float) (rewards_of events) total /\
       length (List.filter is_reset events) = k) /\
    (1 <= action_space_n (env h) -> no_nan (w_table w) ->
     (forall len r, 0 < len -> fst (random_below random len r) < len) ->
     forall e, fst result <> Raise e).
Proof.
  cbn zeta. revert total w. induction k as [|k IH]; intros total w.
  - cbn. split; [reflexivity|]. exists []. rewrite app_nil_r.
    split; [reflexivity|]. split; [constructor|]. split.
    + intros total' [= <-]. split; reflexivity.
    + intros; discriminate.
  - rewrite test_episodes_unfold.
    set (o := fst (env_reset (env h) (env_state h w))).
    set (w1 := set_env_state h _ (add_log [EnvReset h] w)).
    assert (Hw1 : w_table w1 = w_table w /\ w_log w1 = w_log w ++ [EnvReset h]).
    { unfold w1. destruct (set_env_state_frame h (snd (env_reset (env h) (env_state h w)))
                             (add_log [EnvReset h] w)) as (-> & -> & _). now cbn. }
    destruct Hw1 as (Ht1 & Hlog1).
    destruct (test_episode_trace fuel h eps rnd o total w1)
      as (Ht & evs & Hlog & Hev & Hres & Hrew & Hraise).
    destruct (test_episode random env fuel h eps rnd o total w1) as [[t|e|] w2];
      cbn [fst snd] in *.
    + destruct (IH t w2) as (IHt & evs' & IHlog & IHev & IHrew & IHraise).
      split; [congruence|].
      exists (EnvReset h :: evs ++ evs').
      rewrite IHlog, Hlog, Hlog1, <- !app_assoc. split; [reflexivity|].
      split; [constructor; [cbn; apply which_eqb_refl | apply Forall_app; auto]|].
      split.
      * intros total' Htot. destruct (IHrew _ Htot) as (-> & Hlen).
        change (rewards_of (EnvReset h :: evs ++ evs')) with (rewards_of (evs ++ evs')).
        change (List.filter is_reset (EnvReset h :: evs ++ evs'))
          with (EnvReset h :: List.filter is_reset (evs ++ evs')).
        rewrite rewards_of_app, fold_left_app, List.filter_app, Hres.
        rewrite <- (Hrew t eq_refl). cbn [length app]. split; [reflexivity | lia].
      * intros Hn Hnan Hb. apply IHraise; auto. rewrite Ht, Ht1. exact Hnan.
    + split; [congruence|]. exists (EnvReset h :: evs).
      rewrite Hlog, Hlog1, <- app_assoc. split; [reflexivity|].
      split; [constructor; [cbn; apply which_eqb_refl | assumption]|].
      split; [intros; discriminate|].
      intros Hn Hnan Hb. apply Hraise; auto. rewrite Ht1. exact Hnan.
    + split; [congruence|]. exists (EnvReset h :: evs).
      rewrite Hlog, Hlog1, <- app_assoc. split; [reflexivity|].
      split; [constructor; [cbn; apply which_eqb_refl | assumption]|].
      split; intros; discriminate.
Qed.

Lemma test_run fuel h n eps (rnd : bool) (w : World_) :
  test random env fuel h n eps rnd w =
  match test_episodes random env fuel h eps rnd (Z.to_nat n) 0%float w with
  | (Ret total, w1) =>
      (let! episodes := py_float n in py_truediv total episodes,
       add_log [EnvClose h] w1)
  | (Raise e, w1) => (Raise e, w1)
  | (OutOfFuel, w1) => (OutOfFuel, w1)
  end.
Proof.
  unfold test. unfold bind at 1.
  destruct (test_episodes random env fuel h eps rnd (Z.to_nat n) 0%float w)
    as [[total|e|] w1]; try reflexivity.
  unfold bind, close, emit, lift. cbn.
  destruct (py_float n) as [d| |]; reflexivity.
Qed.

(** *** Enough fuel *)






(** C9.  [get_action] leaves the table as it is: its table calls are
    lookups, one per action of [0, n) in the exploitation branch and none
    in the exploration branch, never an update or a save.  So does the
    whole evaluation loop, however far it runs. *)
Theorem get_action_reads_only h o eps (w : World_) :
  let w' := snd (get_action random env h o eps w) in
  (w_table w' = w_table w /\
   exists events,
     w_log w' = w_log w ++ events /\
     List.filter is_table_write events = [] /\
     (List.filter is_table_call events = [] \/
      List.filter is_table_call events
        = map (TableGet o) (seq 0 (action_space_n (env h))))) /\
  (forall fuel n (rnd : bool),
     let w'' := snd (test random env fuel h n eps rnd w) in
     w_table w'' = w_table w /\
     exists events,
       w_log w'' = w_log w ++ events /\ List.filter is_table_write events = []).
Proof.
  cbn zeta. split.
  - destruct (get_action_frame h o eps w) as (_ & Ht & _ & _ & evs & Hlog & Hevs).
    split; [assumption|]. exists evs. split; [assumption|].
    destruct (table_calls_of_gets o (seq 0 (action_space_n (env h)))) as [Hc Hw].
    destruct Hevs as [-> | ->]; cbn; rewrite ?Hc, ?Hw; auto.
  - intros fuel n rnd. rewrite test_run.
    destruct (test_episodes_trace fuel h eps rnd (Z.to_nat n) 0%float w)
      as (Ht & evs & Hlog & Hev & _).
    destruct (evaluation_event_quiet h evs Hev) as [Hq _].
    destruct (test_episodes random env fuel h eps rnd (Z.to_nat n) 0%float w)
      as [[t|e|] w1]; cbn [fst snd add_log w_log w_table] in *.
    + split; [assumption|]. exists (evs ++ [EnvClose h]).
      rewrite Hlog, <- app_assoc. split; [reflexivity|].
      rewrite List.filter_app, Hq. reflexivity.
    + split; [assumption|]. exists evs. auto.
    + split; [assumption|]. exists evs. auto.
Qed.


(** *** The evaluation leaves the other environment alone *)

Lemma set_env_state_other h h' s (w : World_) :
  which_eqb h h' = false -> env_state h' (set_env_state h s w) = env_state h' w.
Proof. destruct h, h'; cbn; congruence. Qed.

Lemma get_action_env_state h h' o eps (w : World_) :
  env_state h' (snd (get_action random env h o eps w)) = env_state h' w.
Proof.
  destruct (get_action_frame h o eps w) as (_ & _ & Hl & Ht & _).
  destruct h'; assumption.
Qed.

Lemma test_episode_other fuel h h' eps (rnd : bool) o total (w : World_) :
  which_eqb h h' = false ->
  env_state h' (snd (test_episode random env fuel h eps rnd o total w)) = env_state h' w.
Proof.
  intros Hh. revert o total w. induction fuel as [|fuel IH]; intros o total w.
  - reflexivity.
  - rewrite test_episode_unfold.
    pose proof (get_action_env_state h h' o eps
                  (if rnd then add_log [EnvRender h] w else w)) as Hga.
    assert (Hw0 : env_state h' (if rnd then add_log [EnvRender h] w else w)
                  = env_state h' w) by (destruct rnd, h'; reflexivity).
    destruct (get_action random env h o eps _) as [[a|e|] w1]; cbn [fst snd] in *;
      try congruence.
    destruct (env_step (env h) a (env_state h w1)) as [[[o' r] d] s'].
    assert (Hw2 : env_state h' (add_log [EnvStep h a r d] (set_env_state h s' w1))
                  = env_state h' w).
    { rewrite <- Hw0, <- Hga, <- (set_env_state_other h h' s' w1 Hh).
      destruct h'; reflexivity. }
    cbn zeta. destruct d; cbn [snd]; [assumption|]. now rewrite IH.
Qed.

Lemma test_episodes_other fuel h h' eps (rnd : bool) k total (w : World_) :
  which_eqb h h' = false ->
  env_state h' (snd (test_episodes random env fuel h eps rnd k total w)) = env_state h' w.
Proof.
  intros Hh. revert total w. induction k as [|k IH]; intros total w.
  - reflexivity.
  - rewrite test_episodes_unfold.
    pose proof (test_episode_other fuel h h' eps rnd
                  (fst (env_reset (env h) (env_state h w))) total
                  (set_env_state h (snd (env_reset (env h) (env_state h w)))
                     (add_log [EnvReset h] w)) Hh) as He.
    rewrite set_env_state_other in He by assumption.
    destruct (test_episode random env fuel h eps rnd _ total _) as [[t|e|] w2];
      cbn [fst snd] in *.
    + rewrite IH, He. destruct h'; reflexivity.
    + rewrite He. destruct h'; reflexivity.
    + rewrite He. destruct h'; reflexivity.
Qed.

Lemma test_other fuel h h' n eps (rnd : bool) (w : World_) :
  which_eqb h h' = false ->
  env_state h' (snd (test random env fuel h n eps rnd w)) = env_state h' w.
Proof.
  intros Hh. rewrite test_run.
  pose proof (test_episodes_other fuel h h' eps rnd (Z.to_nat n) 0%float w Hh) as He.
  destruct (test_episodes random env fuel h eps rnd (Z.to_nat n) 0%float w)
    as [[t|e|] w1]; cbn [fst snd] in *; assumption.
Qed.

(** *** The training loop *)

Lemma evaluation_event_learning_silent (evs : list Event_) :
  Forall (fun e => evaluation_event Testing e = true) evs ->
  learning_epsilons evs = [] /\ learning_rates evs = [].
Proof.
  induction 1 as [|e l He _ [IH1 IH2]]; [split; reflexivity|].
  destruct e as [| | | | | | | | | | |h' ?| | |]; cbn in *; try discriminate; auto.
  destruct h'; cbn in *; try discriminate; auto.
Qed.

Lemma learning_epsilons_app (e1 e2 : list Event_) :
  learning_epsilons (e1 ++ e2) = learning_epsilons e1 ++ learning_epsilons e2.
Proof. apply flat_map_app. Qed.

Lemma learning_rates_app (e1 e2 : list Event_) :
  learning_rates (e1 ++ e2) = learning_rates e1 ++ learning_rates e2.
Proof. apply flat_map_app. Qed.

Lemma learning_silent_gets (o : obs) (l : list nat) :
  learning_epsilons (map (TableGet o) l) = [] /\ learning_rates (map (TableGet o) l) = [].
Proof. induction l as [|a l [IH1 IH2]]; cbn; auto. Qed.

Lemma test_trace fuel n eps (rnd : bool) (w : World_) :
  let result := test random env fuel Testing n eps rnd w in
  env_state Learning (snd result) = env_state Learning w /\
  exists events,
    w_log (snd result) = w_log w ++ events /\
    learning_epsilons events = [] /\ learning_rates events = [].
Proof.
  cbn zeta. split; [now apply test_other|]. rewrite test_run.
  destruct (test_episodes_trace fuel Testing eps rnd (Z.to_nat n) 0%float w)
    as (_ & evs & Hlog & Hev & _).
  destruct (evaluation_event_learning_silent evs Hev) as [He Hl].
  destruct (test_episodes random env fuel Testing eps rnd (Z.to_nat n) 0%float w)
    as [[t|e|] w1]; cbn [fst snd add_log w_log] in *.
  - exists (evs ++ [EnvClose Testing]). rewrite Hlog, <- app_assoc.
    split; [reflexivity|]. rewrite learning_epsilons_app, learning_rates_app, He, Hl.
    split; reflexivity.
  - exists evs. auto.
  - exists evs. auto.
Qed.

Lemma testing_round_run fuel c ep n (w : World_) :
  testing_round random env fuel c ep n w =
  match py_mod n (test_interval c) with
  | Ret remainder =>
      if (remainder =? 0)%Z then
        match test random env fuel Testing (total_number_of_testing_episodes c) 0%float
                false (add_log [MonitorTesting (n / test_interval c)] w) with
        | (Ret average, w1) => (Ret tt, add_log [PrintTest ep n average] w1)
        | (Raise e, w1) => (Raise e, w1)
        | (OutOfFuel, w1) => (OutOfFuel, w1)
        end
      else (Ret tt, w)
  | Raise e => (Raise e, w)
  | OutOfFuel => (OutOfFuel, w)
  end.
Proof.
  unfold testing_round. unfold bind at 1, lift.
  destruct (py_mod n (test_interval c)) as [remainder| |]; try reflexivity.
  destruct (remainder =? 0)%Z; [|reflexivity].
  unfold bind at 1, emit. unfold bind at 1.
  destruct (test random env fuel Testing _ _ _ _) as [[average|e|] w1]; reflexivity.
Qed.

Lemma testing_round_trace fuel c ep n (w : World_) :
  let result := testing_round random env fuel c ep n w in
  env_state Learning (snd result) = env_state Learning w /\
  exists events,
    w_log (snd result) = w_log w ++ events /\
    learning_epsilons events = [] /\ learning_rates events = [].
Proof.
  cbn zeta. rewrite testing_round_run.
  destruct (py_mod n (test_interval c)) as [remainder| |];
    try (split; [reflexivity|]; exists []; rewrite app_nil_r; auto).
  destruct (remainder =? 0)%Z;
    [|split; [reflexivity|]; exists []; rewrite app_nil_r; auto].
  destruct (test_trace fuel (total_number_of_testing_episodes c) 0%float false
              (add_log [MonitorTesting (n / test_interval c)] w))
    as (Hst & evs & Hlog & He & Hl).
  destruct (test random env fuel Testing _ _ _ _) as [[average|e|] w1];
    cbn [fst snd add_log w_log] in *.
  - split; [assumption|]. exists (MonitorTesting (n / test_interval c) :: evs
                                   ++ [PrintTest ep n average]).
    rewrite Hlog, <- !app_assoc. split; [reflexivity|].
    change (learning_epsilons (MonitorTesting (n / test_interval c) :: evs
                               ++ [PrintTest ep n average]))
      with (learning_epsilons (evs ++ [PrintTest ep n average])).
    change (learning_rates (MonitorTesting (n / test_interval c) :: evs
                            ++ [PrintTest ep n average]))
      with (learning_rates (evs ++ [PrintTest ep n average])).
    rewrite learning_epsilons_app, learning_rates_app, He, Hl. split; reflexivity.
  - split; [assumption|]. exists (MonitorTesting (n / test_interval c) :: evs).
    rewrite Hlog, <- !app_assoc. split; [reflexivity|]. auto.
  - split; [assumption|]. exists (MonitorTesting (n / test_interval c) :: evs).
    rewrite Hlog, <- !app_assoc. split; [reflexivity|]. auto.
Qed.


Lemma train_episode_unfold fuel c o a n ep tot (w : World_) :
  train_episode random env (S fuel) c o a n ep tot w =
  let '(o', r, d, s') := env_step (env Learning) a (env_state Learning w) in
  let w1 := add_log [EnvStep Learning a r d] (set_env_state Learning s' w) in
  match get_epsilon (start_epsilon c) (end_epsilon c) n (total_observations c) with
  | Ret eps =>
    match get_action random env Learning o' eps w1 with
    | (Ret a', w2) =>
      match get_learning_rate (start_learning_rate c) (end_learning_rate c) n
              (total_observations c) with
      | Ret lr =>
        match testing_round random env (S fuel) c ep (n + 1)
                (snd (update_table (discount_factor c) lr o a r d o' a' w2)) with
        | (Ret _, w4) =>
            if d then
              match py_mod (ep + 1) (table_saving_interval c) with
              | Ret remainder =>
                  (Ret {| p_observation_number := n + 1;
                          p_episode_number := ep + 1;
                          p_total_rewards := tot + r;
                          p_epsilon := eps |},
                   if (remainder =? 0)%Z then add_log [TableSave] w4 else w4)
              | Raise e => (Raise e, w4)
              | OutOfFuel => (OutOfFuel, w4)
              end
            else train_episode random env fuel c o' a' (n + 1) ep (tot + r) w4
        | (Raise e, w4) => (Raise e, w4)
        | (OutOfFuel, w4) => (OutOfFuel, w4)
        end
      | Raise e => (Raise e, w2)
      | OutOfFuel => (OutOfFuel, w2)
      end
    | (Raise e, w2) => (Raise e, w2)
    | (OutOfFuel, w2) => (OutOfFuel, w2)
    end
  | Raise e => (Raise e, w1)
  | OutOfFuel => (OutOfFuel, w1)
  end.
Proof.
  cbn [train_episode]. unfold bind at 1. rewrite step_run.
  destruct (env_step (env Learning) a (env_state Learning w)) as [[[o' r] d] s'].
  cbn [fst snd]. unfold bind at 1, lift.
  destruct (get_epsilon _ _ n _) as [eps|e|]; try reflexivity.
  unfold bind at 1.
  destruct (get_action random env Learning o' eps _) as [[a'|e|] w2]; try reflexivity.
  unfold bind at 1.
  destruct (get_learning_rate _ _ n _) as [lr|e|]; try reflexivity.
  unfold bind at 1. rewrite update_table_run. cbn [fst snd].
  unfold bind at 1.
  destruct (testing_round random env (S fuel) c ep (n + 1) _) as [[[]|e|] w4];
    try reflexivity.
  destruct d; [|reflexivity].
  unfold bind at 1.
  destruct (py_mod (ep + 1) (table_saving_interval c)) as [remainder|e|]; try reflexivity.
  unfold bind. destruct (remainder =? 0)%Z; reflexivity.
Qed.

Lemma get_action_learning_trace o eps (w : World_) :
  let result := get_action random env Learning o eps w in
  env_state Learning (snd result) = env_state Learning w /\
  exists events,
    w_log (snd result) = w_log w ++ events /\
    learning_epsilons events = [eps] /\ learning_rates events = [].
Proof.
  cbn zeta. split; [apply get_action_env_state|].
  destruct (get_action_frame Learning o eps w) as (_ & _ & _ & _ & evs & Hlog & Hevs).
  exists evs. split; [assumption|].
  destruct Hevs as [-> | ->]; [split; reflexivity|].
  destruct (learning_silent_gets o (seq 0 (action_space_n (env Learning)))) as [He Hl].
  split; [|exact Hl].
  change ([eps] ++ learning_epsilons
            (map (TableGet o) (seq 0 (action_space_n (env Learning)))) = [eps]).
  now rewrite He.
Qed.

Lemma update_table_learning_trace gamma lr o a r d o' a' (w : World_) :
  let result := update_table gamma lr o a r d o' a' w in
  fst result = Ret tt /\
  env_state Learning (snd result) = env_state Learning w /\
  exists events,
    w_log (snd result) = w_log w ++ events /\
    learning_epsilons events = [] /\ learning_rates events = [lr].
Proof.
  cbn zeta. rewrite update_table_run. cbn [fst snd]. split; [reflexivity|].
  split; [reflexivity|]. eexists. split; [reflexivity|]. destruct d; split; reflexivity.
Qed.

Lemma map_seq_shift {A} (f : nat -> A) (k : nat) :
  map f (seq 1 k) = map (fun i => f (S i)) (seq 0 k).
Proof. now rewrite <- seq_shift, map_map. Qed.

Lemma schedule_shift {A} (f : Z -> A) (n : Z) (x : A) (k : nat) :
  f n = x ->
  x :: map (fun i => f (n + 1 + Z.of_nat i)%Z) (seq 0 k)
  = map (fun i => f (n + Z.of_nat i)%Z) (seq 0 (S k)).
Proof.
  intros <-. cbn [seq map]. rewrite map_seq_shift. f_equal.
  - f_equal. lia.
  - apply map_ext. intros i. f_equal. lia.
Qed.

(** The exploration probabilities and learning rates an episode of the
    training uses, iteration after iteration, whatever its outcome. *)
Lemma train_episode_schedule fuel c o a n ep tot (w : World_) :
  let result := train_episode random env fuel c o a n ep tot w in
  let eps_at := fun k : nat =>
    get_epsilon (start_epsilon c) (end_epsilon c) (n + Z.of_nat k) (total_observations c) in
  let lr_at := fun k : nat =>
    get_learning_rate (start_learning_rate c) (end_learning_rate c) (n + Z.of_nat k)
      (total_observations c) in
  exists events ke kl,
    w_log (snd result) = w_log w ++ events /\
    map Ret (learning_epsilons events) = map eps_at (seq 0 ke) /\
    map Ret (learning_rates events) = map lr_at (seq 0 kl) /\
    kl <= ke <= S kl /\
    (forall p, fst result = Ret p ->
       p_observation_number p = (n + Z.of_nat ke)%Z /\ kl = ke /\ 1 <= ke).
Proof.
  cbn zeta. revert o a n ep tot w. induction fuel as [|fuel IH]; intros o a n ep tot w.
  - exists [], 0, 0. cbn. rewrite app_nil_r. repeat split; auto; intros; discriminate.
  - rewrite train_episode_unfold.
    destruct (env_step (env Learning) a (env_state Learning w)) as [[[o' r] d] s'].
    cbn zeta.
    set (w1 := add_log [EnvStep Learning a r d] (set_env_state Learning s' w)).
    assert (Hlog1 : w_log w1 = w_log w ++ [EnvStep Learning a r d]) by reflexivity.
    destruct (get_epsilon _ _ n _) as [eps|e|] eqn:Eeps;
      try (exists [EnvStep Learning a r d], 0, 0; cbn [fst snd];
           repeat split; auto; intros; discriminate).
    assert (Heps0 : get_epsilon (start_epsilon c) (end_epsilon c) (n + Z.of_nat 0)
                      (total_observations c) = Ret eps)
      by (now rewrite Z.add_0_r).
    destruct (get_action_learning_trace o' eps w1) as (_ & evg & Hlogg & Hge & Hgl).
    destruct (get_action random env Learning o' eps w1) as [[a'|e|] w2]; cbn [fst snd] in *;
      try (exists ([EnvStep Learning a r d] ++ evg), 1, 0;
           rewrite Hlogg, Hlog1, <- app_assoc;
           rewrite learning_epsilons_app, learning_rates_app, Hge, Hgl;
           cbn [seq map]; rewrite Heps0;
           repeat split; auto; intros; discriminate).
    destruct (get_learning_rate _ _ n _) as [lr|e|] eqn:Elr;
      try (exists ([EnvStep Learning a r d] ++ evg), 1, 0;
           cbn [fst snd]; rewrite Hlogg, Hlog1, <- app_assoc;
           rewrite learning_epsilons_app, learning_rates_app, Hge, Hgl;
           cbn [seq map]; rewrite Heps0;
           repeat split; auto; intros; discriminate).
    assert (Hlr0 : get_learning_rate (start_learning_rate c) (end_learning_rate c)
                     (n + Z.of_nat 0) (total_observations c) = Ret lr)
      by (now rewrite Z.add_0_r).
    destruct (update_table_learning_trace (discount_factor c) lr o a r d o' a' w2)
      as (_ & _ & evu & Hlogu & Hue & Hul).
    set (w3 := snd (update_table (discount_factor c) lr o a r d o' a' w2)) in *.
    destruct (testing_round_trace (S fuel) c ep (n + 1) w3) as (_ & evt & Hlogt & Hte & Htl).
    set (pre := [EnvStep Learning a r d] ++ evg ++ evu ++ evt).
    assert (Hpre : learning_epsilons pre = [eps] /\ learning_rates pre = [lr]).
    { unfold pre.
      rewrite !learning_epsilons_app, !learning_rates_app, Hge, Hgl, Hue, Hul, Hte, Htl.
      split; reflexivity. }
    destruct Hpre as [Hpe Hpl].
    destruct (testing_round random env (S fuel) c ep (n + 1) w3) as [[[]|e|] w4];
      cbn [fst snd] in *.
    + assert (Hlog4 : w_log w4 = w_log w ++ pre).
      { unfold pre. rewrite Hlogt, Hlogu, Hlogg, Hlog1, <- !app_assoc. reflexivity. }
      destruct d.
      * destruct (py_mod (ep + 1) (table_saving_interval c)) as [remainder|e|];
          cbn [fst snd].
        -- exists (pre ++ if (remainder =? 0)%Z then [TableSave] else []), 1, 1.
           split.
           { destruct (remainder =? 0)%Z; cbn [add_log w_log];
               rewrite Hlog4, <- ?app_assoc, ?app_nil_r; reflexivity. }
           rewrite learning_epsilons_app, learning_rates_app, Hpe, Hpl.
           assert (Hsave : learning_epsilons
                             (if (remainder =? 0)%Z then [@TableSave obs] else []) = []
                           /\ learning_rates
                                (if (remainder =? 0)%Z then [@TableSave obs] else []) = [])
             by (destruct (remainder =? 0)%Z; split; reflexivity).
           destruct Hsave as [-> ->].
           cbn [seq map app]. rewrite Heps0, Hlr0.
           split; [reflexivity|]. split; [reflexivity|]. split; [lia|].
           intros p [= <-]. cbn. lia.
        -- exists pre, 1, 1. rewrite Hpe, Hpl. cbn [seq map]. rewrite Heps0, Hlr0.
           repeat split; auto; intros; discriminate.
        -- exists pre, 1, 1. rewrite Hpe, Hpl. cbn [seq map]. rewrite Heps0, Hlr0.
           repeat split; auto; intros; discriminate.
      * destruct (IH o' a' (n + 1)%Z ep (tot + r)%float w4)
          as (evs & ke & kl & IHlog & IHe & IHl & IHk & IHp).
        exists (pre ++ evs), (S ke), (S kl).
        rewrite IHlog, Hlog4, <- app_assoc. split; [reflexivity|].
        rewrite learning_epsilons_app, learning_rates_app, Hpe, Hpl.
        cbn [app map]. rewrite IHe, IHl.
        split; [now apply (schedule_shift (fun z => get_epsilon _ _ z _))|].
        split; [now apply (schedule_shift (fun z => get_learning_rate _ _ z _))|].
        split; [lia|].
        intros p Hp. destruct (IHp p Hp) as (Hn & Hk & Hke). split; [lia|]. lia.
    + exists pre, 1, 1. rewrite Hpe, Hpl. cbn [seq map]. rewrite Heps0, Hlr0.
      unfold pre. rewrite Hlogt, Hlogu, Hlogg, Hlog1, <- !app_assoc.
      repeat split; auto; intros; discriminate.
    + exists pre, 1, 1. rewrite Hpe, Hpl. cbn [seq map]. rewrite Heps0, Hlr0.
      unfold pre. rewrite Hlogt, Hlogu, Hlogg, Hlog1, <- !app_assoc.
      repeat split; auto; intros; discriminate.
Qed.

Lemma learning_episode_unfold fuel c n ep (w : World_) :
  learning_episode random env fuel c n ep w =
  match get_epsilon (start_epsilon c) (end_epsilon c) n (total_observations c) with
  | Ret eps =>
      match get_action random env Learning
              (fst (env_reset (env Learning) (env_state Learning w))) eps
              (set_env_state Learning (snd (env_reset (env Learning) (env_state Learning w)))
                 (add_log [EnvReset Learning] w)) with
      | (Ret a, w2) =>
          train_episode random env fuel c
            (fst (env_reset (env Learning) (env_state Learning w))) a n ep 0%float w2
      | (Raise e, w2) => (Raise e, w2)
      | (OutOfFuel, w2) => (OutOfFuel, w2)
      end
  | Raise e =>
      (Raise e, set_env_state Learning (snd (env_reset (env Learning) (env_state Learning w)))
                  (add_log [EnvReset Learning] w))
  | OutOfFuel =>
      (OutOfFuel,
       set_env_state Learning (snd (env_reset (env Learning) (env_state Learning w)))
         (add_log [EnvReset Learning] w))
  end.
Proof.
  unfold learning_episode. unfold bind at 1. rewrite reset_run. unfold bind at 1, lift.
  destruct (get_epsilon _ _ n _) as [eps|e|]; reflexivity.
Qed.

(** C6, as amended.  In an episode of the training entered at counter
    value [n], the first action is selected with the exploration
    probability of [n]; then iteration [k] (from 0) of the inner loop
    selects the next action with the exploration probability of [n + k] and
    updates the table with the learning rate of [n + k], the counter value
    before that iteration's increment; an episode that returns has made as
    many iterations as it has advanced the counter. *)
Theorem training_schedule fuel c n ep (w : World_) :
  let result := learning_episode random env fuel c n ep w in
  let eps_at := fun k : nat =>
    get_epsilon (start_epsilon c) (end_epsilon c) (n + Z.of_nat k) (total_observations c) in
  let lr_at := fun k : nat =>
    get_learning_rate (start_learning_rate c) (end_learning_rate c) (n + Z.of_nat k)
      (total_observations c) in
  exists events ke kl,
    w_log (snd result) = w_log w ++ events /\
    (learning_epsilons events = [] \/
     map Ret (learning_epsilons events) = eps_at 0 :: map eps_at (seq 0 ke)) /\
    map Ret (learning_rates events) = map lr_at (seq 0 kl) /\
    kl <= ke <= S kl /\
    (forall p, fst result = Ret p ->
       map Ret (learning_epsilons events) = eps_at 0 :: map eps_at (seq 0 ke) /\
       p_observation_number p = (n + Z.of_nat ke)%Z /\ kl = ke /\ 1 <= ke).
Proof.
  cbn zeta. rewrite learning_episode_unfold.
  set (o := fst (env_reset (env Learning) (env_state Learning w))).
  set (w1 := set_env_state Learning _ (add_log [EnvReset Learning] w)).
  assert (Hlog1 : w_log w1 = w_log w ++ [EnvReset Learning]) by reflexivity.
  destruct (get_epsilon _ _ n _) as [eps|e|] eqn:Eeps;
    try (exists [EnvReset Learning], 0, 0; cbn [fst snd];
         split; [assumption|]; split; [now left|]; split; [reflexivity|];
         split; [lia|]; intros; discriminate).
  assert (Heps0 : get_epsilon (start_epsilon c) (end_epsilon c) (n + Z.of_nat 0)
                    (total_observations c) = Ret eps)
    by (now rewrite Z.add_0_r).
  destruct (get_action_learning_trace o eps w1) as (_ & evg & Hlogg & Hge & Hgl).
  destruct (get_action random env Learning o eps w1) as [[a|e|] w2]; cbn [fst snd] in *;
    try (exists ([EnvReset Learning] ++ evg), 0, 0;
         rewrite Hlogg, Hlog1, <- app_assoc;
         rewrite learning_epsilons_app, learning_rates_app, Hge, Hgl;
         split; [reflexivity|]; split; [right; cbn; now rewrite Heps0|];
         split; [reflexivity|]; split; [lia|]; intros; discriminate).
  destruct (train_episode_schedule fuel c o a n ep 0%float w2)
    as (evs & ke & kl & Hlog & He & Hl & Hk & Hp).
  exists (([EnvReset Learning] ++ evg) ++ evs), ke, kl.
  rewrite Hlog, Hlogg, Hlog1, <- !app_assoc. split; [reflexivity|].
  assert (Heq : map Ret (learning_epsilons ([EnvReset Learning] ++ evg ++ evs))
                = get_epsilon (start_epsilon c) (end_epsilon c) (n + Z.of_nat 0)
                    (total_observations c)
                  :: map (fun k : nat =>
                            get_epsilon (start_epsilon c) (end_epsilon c)
                              (n + Z.of_nat k) (total_observations c)) (seq 0 ke)).
  { rewrite !learning_epsilons_app, Hge. cbn [app map learning_epsilons flat_map].
    now rewrite Heps0, He. }
  split; [now right|].
  rewrite !learning_rates_app, Hgl. cbn [app learning_rates flat_map].
  split; [assumption|]. split; [assumption|].
  intros p Hret. split; [assumption|]. now apply Hp.
Qed.

Lemma schedule_halts s e n t :
  get_epsilon s e n t <> OutOfFuel /\ get_learning_rate s e n t <> OutOfFuel.
Proof.
  unfold get_epsilon, get_learning_rate, py_truediv, py_float.
  destruct (is_infinity (of_int t)); cbn [obind]; [split; congruence|].
  destruct (is_infinity (of_int n)); cbn [obind]; [split; congruence|].
  destruct (of_int t =? 0)%float; cbn [obind]; split; congruence.
Qed.




Lemma train_loop_unfold fuel c n ep (w : World_) :
  train_loop random env (S fuel) c n ep w =
  if (n <? total_observations c)%Z then
    match learning_episode random env (S fuel) c n ep w with
    | (Ret p, w1) =>
        train_loop random env fuel c (p_observation_number p) (p_episode_number p)
          (add_log [PrintEpisode (p_episode_number p - 1) (p_observation_number p)
                      (p_total_rewards p) (p_epsilon p)] w1)
    | (Raise e, w1) => (Raise e, w1)
    | (OutOfFuel, w1) => (OutOfFuel, w1)
    end
  else (Ret (n, ep), w).
Proof.
  cbn [train_loop]. destruct (n <? total_observations c)%Z; [|reflexivity].
  unfold bind at 1.
  destruct (learning_episode random env (S fuel) c n ep w) as [[p|e|] w1]; reflexivity.
Qed.

Lemma train_loop_done fuel c n ep (w : World_) :
  (total_observations c <= n)%Z -> train_loop random env fuel c n ep w = (Ret (n, ep), w).
Proof.
  intros Hn. assert (Hlt : (n <? total_observations c)%Z = false) by (apply Z.ltb_ge; lia).
  destruct fuel; cbn [train_loop]; now rewrite Hlt.
Qed.



Lemma train_run fuel c (w : World_) :
  train random env fuel c w =
  match train_loop random env fuel c 0 1 (add_log [MonitorLearning] w) with
  | (Ret _, w1) => (Ret tt, add_log [EnvClose Learning; InnerClose] w1)
  | (Raise e, w1) => (Raise e, w1)
  | (OutOfFuel, w1) => (OutOfFuel, w1)
  end.
Proof.
  unfold train. unfold bind at 1, emit. unfold bind at 1.
  destruct (train_loop random env fuel c 0 1 _) as [[[]|e|] w1]; try reflexivity.
  unfold bind, close, emit. cbn. now rewrite add_log_app.
Qed.

(** *** The exceptions that can propagate *)










End AgentFacts.

(** * Concrete runs *)

(** A random source that always draws 0.5 and the first index; its state
    counts the draws. *)
Definition fixed_random : RandomSource (R := nat) :=
  {| random_random := fun r => (0.5%float, S r);
     random_below := fun _ r => (0, S r) |}.

(** An environment whose observations and states count the steps of the
    episode: every step pays [reward], and the episode ends at step
    [steps]. *)
Definition chain_env (steps : nat) (reward : float) (actions : nat)
    : Env (obs := nat) (R := nat) (St := nat) :=
  {| action_space_n := actions;
     action_space_sample := fun r => (0, S r);
     env_reset := fun _ => (0, 0);
     env_step := fun _ s => (S s, reward, Nat.eqb (S s) steps, S s) |}.


Definition world_with (t : gmap (nat * nat) float) : world (R := nat) (St := nat) :=
  World t 0 0 0 [].


Lemma fixed_random_below (len r : nat) : 0 < len -> fst (random_below fixed_random len r) < len.
Proof. intros Hlen. exact Hlen. Qed.

(** The example of the specification: gamma 0.9, alpha 0.5, reward 1.0, a
    next estimate 2.0 and no prior estimate give 1.4. *)
Lemma update_table_stores_blend_witness :
  exists w',
    update_table 0.9 0.5 0 0 1 false 1 0 (world_with (<[(1, 0) := 2%float]> ∅))
    = (Ret tt, w') /\
    w_table w' !! (0, 0) = Some 1.4%float.
Proof.
  destruct (update_table_stores_blend 0.9 0.5 0 0 1 false 1 0
              (world_with (<[(1, 0) := 2%float]> ∅)))
    as (v & w' & Hrun & Hlook & _ & Hnone & _).
  exists w'. split; [exact Hrun|]. rewrite Hlook.
  destruct Hnone as [-> _]; [reflexivity|]. vm_compute. reflexivity.
Defined.

Lemma no_nan_empty : no_nan (∅ : gmap (nat * nat) float).
Proof. intros k v Hk. rewrite lookup_empty in Hk. discriminate. Qed.

(** Two actions with estimates 1.0 and 2.0: epsilon 0 picks the second. *)
Lemma greedy_exploitation_witness :
  fst (get_action fixed_random (fun _ => chain_env 1 1 2) Testing 0 0
         (world_with (<[(0, 1) := 2%float]> (<[(0, 0) := 1%float]> ∅))))
  = Ret 1.
Proof.
  assert (Hn : 1 <= 2) by lia.
  assert (Hnan : forall a, a < 2 ->
            is_nan (estimate (<[(0, 1) := 2%float]> (<[(0, 0) := 1%float]> ∅)) 0 a) = false).
  { intros [|[|a]] Ha; [vm_compute; reflexivity | vm_compute; reflexivity | lia]. }
  destruct (greedy_exploitation fixed_random (fun _ => chain_env 1 1 2) Testing 0 0
              (world_with (<[(0, 1) := 2%float]> (<[(0, 0) := 1%float]> ∅)))
              Hn Hnan fixed_random_below) as (_ & _ & _ & _ & _ & Hunique).
  apply (Hunique 1).
  - cbn. lia.
  - intros [|[|b]] Hb Hne; [vm_compute; reflexivity | congruence | cbn in Hb; lia].
  - vm_compute. reflexivity.
Defined.

(** C2, as stated, fails on a table that holds a NaN: with estimates NaN
    and 1.0, [max] answers NaN, no action compares equal to it, and
    [random.choice] raises on the empty list instead of returning the
    action whose estimate is 1.0. *)
Lemma greedy_fails_on_nan :
  estimate (<[(0, 1) := 1%float]> (<[(0, 0) := nan]> ∅)) 0 0 = nan /\
  estimate (<[(0, 1) := 1%float]> (<[(0, 0) := nan]> ∅)) 0 1 = 1%float /\
  fst (get_action fixed_random (fun _ => chain_env 1 1 2) Testing 0 0
         (world_with (<[(0, 1) := 1%float]> (<[(0, 0) := nan]> ∅))))
  = Raise IndexError.
Proof. repeat split; vm_compute; reflexivity. Qed.

Lemma get_action_in_range_witness :
  exists a w',
    get_action fixed_random (fun _ => chain_env 1 1 2) Testing 0 0.25
      (world_with (<[(0, 1) := 2%float]> ∅)) = (Ret a, w') /\ a < 2.
Proof.
  assert (Hn : 1 <= 2) by lia.
  assert (Hnan : forall a, a < 2 ->
            is_nan (estimate (<[(0, 1) := 2%float]> ∅) 0 a) = false).
  { intros [|[|a]] Ha; [vm_compute; reflexivity | vm_compute; reflexivity | lia]. }
  assert (Hsample : forall r : nat,
            fst (action_space_sample (chain_env 1 1 2) r) < 2) by (intros; cbn; lia).
  destruct (get_action_in_range fixed_random (fun _ => chain_env 1 1 2) Testing 0 0.25
              (world_with (<[(0, 1) := 2%float]> ∅)) Hn Hnan fixed_random_below Hsample)
    as (a & w' & Hrun & Ha & _).
  exists a, w'. split; [exact Hrun | exact Ha].
Defined.

(** C4, as stated, fails on a table that holds a NaN: one action whose
    estimate is NaN, and [get_action] raises [IndexError]. *)
Lemma get_action_raises_on_nan :
  1 <= action_space_n (chain_env 1 1 1) /\
  fst (get_action fixed_random (fun _ => chain_env 1 1 1) Testing 0 0
         (world_with (<[(0, 0) := nan]> ∅)))
  = Raise IndexError.
Proof. split; [cbn; lia | vm_compute; reflexivity]. Qed.



(** Annealing from 1.0 to 0.1 over 10 observations; the intervals are
    beyond the run, so no testing round and no save take place. *)
Definition short_config : config :=
  {| discount_factor := 0.9;
     start_learning_rate := 0.5;
     end_learning_rate := 0.1;
     start_epsilon := 1;
     end_epsilon := 0.1;
     total_observations := 10;
     test_interval := 100;
     total_number_of_testing_episodes := 1;
     table_saving_interval := 100 |}.

(** C6, as stated, fails from the second iteration of an episode on.  In
    an episode of three steps entered at counter 0 the selections are made
    with 1.0 (first action), 1.0 (iteration 1), 0.91 (iteration 2) and 0.82
    (iteration 3): the action executed in iteration 2 was selected with the
    exploration probability of counter 0, the next action of iteration 2
    with that of counter 1. *)
Lemma next_epsilon_differs_from_current :
  learning_epsilons
    (w_log (snd (learning_episode fixed_random (fun _ => chain_env 3 1 2) 20
                   short_config 0 1 (world_with ∅))))
  = [1; 1; 0.91; 0.82]%float /\
  get_epsilon 1 0.1 0 10 = Ret 1%float /\
  get_epsilon 1 0.1 1 10 = Ret 0.91%float /\
  (1 =? 0.91)%float = false.
Proof. repeat split; vm_compute; reflexivity. Qed.








(** * Further properties of the agent *)

(** ** Binary64 identities used by the update rule *)

Lemma SFmul_one_finite s m e :
  valid_binary (S754_finite s m e) = true ->
  SFmul prec emax (S754_finite s m e) (S754_finite false 4503599627370496 (-52))
  = S754_finite s m e.
Proof.
  intros Hv. unfold valid_binary, SpecFloat.valid_binary, bounded, canonical_mantissa in Hv.
  apply andb_true_iff in Hv as [Hc Hb]. apply Z.eqb_eq in Hc. apply Z.leb_le in Hb.
  unfold SFmul. rewrite xorb_false_r.
  rewrite (Pos.mul_comm m).
  change (4503599627370496 * m)%positive with (Pos.iter xO m 52).
  unfold binary_round_aux, shr_fexp.
  set (big := Z.pos _).
  assert (Hd : Zdigits2 big = (Z.pos (digits2_pos m) + 52)%Z).
  { unfold big. cbn [Zdigits2]. rewrite digits2_pos_iter. lia. }
  rewrite Hd.
  replace (Z.pos (digits2_pos m) + 52 + (e + -52))%Z with (Z.pos (digits2_pos m) + e)%Z by lia.
  rewrite Hc.
  replace (e - (e + -52))%Z with 52%Z by lia.
  assert (Hs : shr (shr_record_of_loc big loc_Exact) (e + -52) 52
               = ({| shr_m := Z.pos m; shr_r := false; shr_s := false |}, (e + -52 + 52)%Z))
    by reflexivity.
  rewrite Hs. cbn [Zdigits2 shr_m].
  replace (e + -52 + 52)%Z with e by lia.
  cbn [loc_of_shr_record shr_m round_nearest_even shr_record_of_loc].
  change (Zdigits2 (Z.pos m)) with (Z.pos (digits2_pos m)).
  rewrite Hc, Z.sub_diag. cbn [shr shr_m].
  destruct (Z.leb_spec e (emax - prec)); [reflexivity | lia].
Qed.

(** Multiplying by 1.0 is exact. *)
Lemma float_mul_one (x : float) : (x * 1 = x)%float.
Proof.
  apply Prim2SF_inj. rewrite FloatAxioms.mul_spec.
  change (Prim2SF 1) with (S754_finite false 4503599627370496 (-52)).
  pose proof (Prim2SF_valid x) as Hv.
  destruct (Prim2SF x) as [s|s| |s m e].
  - cbn. now rewrite xorb_false_r.
  - cbn. now rewrite xorb_false_r.
  - reflexivity.
  - now apply SFmul_one_finite.
Qed.

Lemma float_one_mul (x : float) : (1 * x = x)%float.
Proof. rewrite float_mul_comm. apply float_mul_one. Qed.

Lemma same_number_refl (x : float) : same_number x x = true.
Proof.
  unfold same_number. destruct (is_nan x) eqn:E.
  - apply orb_true_r.
  - now rewrite float_eqb_refl.
Qed.

(** Adding a zero on the left gives the same number. *)
Lemma float_zero_add (z x : float) :
  (z =? 0)%float = true -> same_number (z + x) x = true.
Proof.
  rewrite is_zero_spec, same_number_spec, add_spec.
  destruct (Prim2SF z) as [sz|sz| |sz mz ez]; try discriminate; intros _.
  destruct (Prim2SF x) as [sx|sx| |sx mx ex]; cbn.
  - destruct sz, sx; reflexivity.
  - destruct sx; reflexivity.
  - reflexivity.
  - rewrite orb_false_r. apply (SFeqb_refl (S754_finite sx mx ex)). reflexivity.
Qed.

(** Zero divided by a finite number other than zero is a zero. *)
Lemma float_zero_div (h : float) :
  is_finite h = true -> (h =? 0)%float = false -> (0 / h =? 0)%float = true.
Proof.
  rewrite is_finite_spec, !is_zero_spec, div_spec.
  change (Prim2SF 0) with (S754_zero false).
  destruct (Prim2SF h) as [s|s| |s m e]; try discriminate; reflexivity.
Qed.

Lemma float_ltb_leb_trans x y z :
  (x <? y)%float = true -> (y <=? z)%float = true -> (x <? z)%float = true.
Proof.
  rewrite !float_ltb_iff, float_leb_iff. intros (? & ? & Hxy) (_ & ? & Hyz).
  repeat split; try assumption. destruct Hyz as [Hyz|Hyz].
  - eapply lex_lt_trans; eassumption.
  - congruence.
Qed.

Lemma float_ltb_nan_r x y : is_nan y = true -> (x <? y)%float = false.
Proof.
  intros Hy. destruct (x <? y)%float eqn:E; [|reflexivity].
  apply float_ltb_iff in E as (_ & Hy' & _). congruence.
Qed.

Lemma float_ltb_not_nan x y : (x <? y)%float = true -> is_nan x = false /\ is_nan y = false.
Proof. rewrite float_ltb_iff. tauto. Qed.

(** ** The schedules on a zero horizon *)

(** X9.  With a horizon of 0 observations both schedules raise
    [ZeroDivisionError], whatever the progress (of magnitude below 2^53)
    and the two ends of the schedule. *)
Theorem schedules_zero_horizon (start end_ : float) (progress : Z) :
  (Z.abs progress < 2 ^ 53)%Z ->
  get_epsilon start end_ progress 0 = Raise ZeroDivisionError /\
  get_learning_rate start end_ progress 0 = Raise ZeroDivisionError.
Proof.
  intros Hp. destruct (py_float_bounded progress Hp) as (fp & Hfp & _).
  unfold get_epsilon, get_learning_rate. rewrite py_float_zero, Hfp. cbn [obind].
  unfold py_truediv. change (0 =? 0)%float with true. split; reflexivity.
Qed.

(** ** The agent's methods, further *)

Section AgentMore.

Context {obs : Type} `{Countable obs} {R St : Type}.
Variable random : RandomSource (R := R).
Variable env : which -> Env (obs := obs) (R := R) (St := St).

Abbreviation World_ := (@world obs _ _ R St).
Abbreviation Event_ := (@event obs).
Abbreviation M_ := (@M obs _ _ R St).

(** ** Call traces, compositionally *)

(** [m] appends to the call trace events that all satisfy [P], whatever
    its outcome, and when it returns [a] the appended events satisfy
    [Q a]. *)
Definition emits {A} (m : M_ A) (P : Event_ -> Prop) (Q : A -> list Event_ -> Prop) : Prop :=
  forall w : World_, exists events,
    w_log (snd (m w)) = w_log w ++ events /\ Forall P events /\
    forall a, fst (m w) = Ret a -> Q a events.

(** The number of events of a trace that [p] selects. *)
Definition calls (p : Event_ -> bool) (events : list Event_) : nat :=
  length (List.filter p events).

Definition is_step (e : Event_) : bool :=
  match e with EnvStep _ _ _ _ => true | _ => false end.
Definition is_selection (e : Event_) : bool :=
  match e with CallGetAction _ _ => true | _ => false end.
Definition is_render (e : Event_) : bool :=
  match e with EnvRender _ => true | _ => false end.
Definition is_close (e : Event_) : bool :=
  match e with EnvClose _ => true | _ => false end.
Definition is_learning_step (e : Event_) : bool :=
  match e with EnvStep Learning _ _ _ => true | _ => false end.
Definition is_learning_reset (e : Event_) : bool :=
  match e with EnvReset Learning => true | _ => false end.
Definition is_update (e : Event_) : bool :=
  match e with TableUpdate _ _ _ => true | _ => false end.
Definition is_save (e : Event_) : bool :=
  match e with TableSave => true | _ => false end.
Definition is_print_episode (e : Event_) : bool :=
  match e with PrintEpisode _ _ _ _ => true | _ => false end.

(** The rewards of the steps of the learning environment, in order. *)
Definition learning_rewards (events : list Event_) : list float :=
  flat_map (fun e => match e with EnvStep Learning _ reward _ => [reward] | _ => [] end)
    events.

(** What [test] on environment [h] may call: that environment, the
    selection of actions for it with the exploration probability it was
    given, table lookups, and [render] only when asked to. *)
Definition test_call (h : which) (eps : float) (rnd : bool) (e : Event_) : Prop :=
  match e with
  | EnvReset h' | EnvStep h' _ _ _ | SpaceSample h' | EnvClose h' => h' = h
  | EnvRender h' => h' = h /\ rnd = true
  | CallGetAction h' eps' => h' = h /\ eps' = eps
  | TableGet _ _ => True
  | _ => False
  end.

(** What the loop of [train] may call: never [render], and the selections
    for the testing environment are greedy.  The wrapping of the learning
    environment and the two final [close] calls are outside the loop. *)
Definition train_call (e : Event_) : Prop :=
  match e with
  | CallGetAction Testing eps => eps = 0%float
  | EnvRender _ | MonitorLearning | InnerClose | EnvClose Learning => False
  | _ => True
  end.

(** No call of the learning side: no step or reset of the learning
    environment, no table update, no save, no episode report. *)
Definition learning_silent (events : list Event_) : Prop :=
  learning_rewards events = [] /\ calls is_learning_reset events = 0 /\
  calls is_update events = 0 /\ calls is_save events = 0 /\
  calls is_print_episode events = 0.

(** The bookkeeping of one learning episode entered at counter [n] with
    episode number [ep] and running reward [tot], [pending] updates being
    due for steps already taken. *)
Definition episode_account (c : config) (ep n : Z) (tot : float) (pending : nat)
    (p : progress) (events : list Event_) : Prop :=
  p_episode_number p = (ep + 1)%Z /\
  p_observation_number p = (n + Z.of_nat (length (learning_rewards events)))%Z /\
  p_total_rewards p
  = fold_left (fun t r => (t + r)%float) (learning_rewards events) tot /\
  calls is_update events = length (learning_rewards events) + pending /\
  calls is_learning_reset events = 0 /\
  calls is_print_episode events = 0 /\
  calls is_save events
  = (if ((ep + 1) mod table_saving_interval c =? 0)%Z then 1 else 0).

(** The identifiers given to the Monitor of the testing environment, in
    the order of the testing rounds. *)
Definition monitor_uids (events : list Event_) : list Z :=
  flat_map (fun e => match e with MonitorTesting uid => [uid] | _ => [] end) events.

(** The testing rounds due while the observation counter goes from [n] to
    [n + k]: one per multiple of the interval among [n + 1 .. n + k],
    identified by its quotient. *)
Definition rounds_due (interval n : Z) (k : nat) : list Z :=
  flat_map (fun i : nat =>
              if ((n + 1 + Z.of_nat i) mod interval =? 0)%Z
              then [((n + 1 + Z.of_nat i) / interval)%Z] else [])
    (seq 0 k).

(** *** The update rule *)

(** X1.  [update_table] always returns, whatever the table holds; it
    changes the table at the current pair only, so that the keys of the
    table grow by that pair at most, and it touches neither the random
    source nor the environments. *)
Theorem update_table_frame gamma alpha o a r d o' a' (w : World_) :
  let result := update_table gamma alpha o a r d o' a' w in
  fst result = Ret tt /\
  (forall k, k <> (o, a) -> w_table (snd result) !! k = w_table w !! k) /\
  dom (w_table (snd result)) = {[ (o, a) ]} ∪ dom (w_table w) /\
  w_random (snd result) = w_random w /\
  w_learning (snd result) = w_learning w /\
  w_testing (snd result) = w_testing w.
Proof.
  cbn zeta. rewrite update_table_run. cbn.
  split; [reflexivity|]. split.
  - intros k Hk. now apply lookup_insert_ne.
  - split; [apply dom_insert_L | auto].
Qed.

(** X2.  With learning rate 1 the prior estimate is forgotten: the stored
    value is the target, exactly when there was no prior estimate, and as
    a number when the prior estimate was finite. *)
Theorem update_table_rate_one gamma o a r d o' a' (w : World_) :
  let target := td_target gamma r d (w_table w !! (o', a')) in
  (forall q, w_table w !! (o, a) = Some q -> is_finite q = true) ->
  exists v,
    w_table (snd (update_table gamma 1 o a r d o' a' w)) !! (o, a) = Some v /\
    same_number v target = true /\
    (w_table w !! (o, a) = None -> v = target).
Proof.
  intros target Hfin. rewrite update_table_run. cbn. rewrite lookup_insert_eq.
  fold target. eexists. split; [reflexivity|].
  destruct (w_table w !! (o, a)) as [q|] eqn:Eq.
  - split; [|discriminate]. rewrite float_one_mul.
    change (1 - 1)%float with 0%float. apply same_number_add_mul_zero. now apply Hfin.
  - rewrite float_one_mul. split; [apply same_number_refl | reflexivity].
Qed.

(** X3.  With learning rate 0 a known estimate keeps its value, as a
    number, whenever the target is finite. *)
Theorem update_table_rate_zero gamma o a r d o' a' (w : World_) (q : float) :
  w_table w !! (o, a) = Some q ->
  is_finite (td_target gamma r d (w_table w !! (o', a'))) = true ->
  exists v,
    w_table (snd (update_table gamma 0 o a r d o' a' w)) !! (o, a) = Some v /\
    same_number v q = true.
Proof.
  intros Hq Hfin. rewrite update_table_run. cbn. rewrite lookup_insert_eq, Hq.
  eexists. split; [reflexivity|].
  change (1 - 0)%float with 1%float. rewrite float_mul_one.
  apply float_zero_add. now apply zero_mul_finite.
Qed.

(** *** Action selection *)

(** In the exploitation branch the trace of [get_action] is its entry and
    one lookup per action, whatever the outcome. *)
Lemma get_action_exploit_log h o eps (w : World_) :
  (fst (random_random random (w_random w)) <? eps)%float = false ->
  w_log (snd (get_action random env h o eps w))
  = w_log w ++ CallGetAction h eps :: map (TableGet o) (seq 0 (action_space_n (env h))).
Proof.
  intros Hu. pose proof (get_action_run random env h o eps w) as Hrun. cbn zeta in Hrun.
  rewrite Hu in Hrun. rewrite Hrun. clear Hrun.
  destruct (py_max _) as [m| |]; try reflexivity.
  destruct (List.filter _ _) as [|x l] eqn:Hl; [reflexivity|].
  rewrite random_choice_run by congruence. reflexivity.
Qed.

(** X4.  Learning and acting: after [update_table] has written the
    estimate of [(o, a)] in a table that knows no other action of [o], a
    greedy selection at [o] returns [a] when the written estimate is
    positive, and another action when it is negative and there is one. *)
Theorem learned_action_is_chosen h gamma alpha o a r d o' a' (w : World_) :
  let n := action_space_n (env h) in
  let w' := snd (update_table gamma alpha o a r d o' a' w) in
  let u := fst (random_random random (w_random w)) in
  a < n ->
  (forall b, b <> a -> w_table w !! (o, b) = None) ->
  (0 <=? u)%float = true ->
  (forall len r, 0 < len -> fst (random_below random len r) < len) ->
  ((0 <? estimate (w_table w') o a)%float = true ->
   fst (get_action random env h o 0 w') = Ret a) /\
  ((estimate (w_table w') o a <? 0)%float = true -> 2 <= n ->
   exists b, fst (get_action random env h o 0 w') = Ret b /\ b <> a /\ b < n).
Proof.
  intros n w' u Ha Hnone Hu Hbelow.
  assert (Hrand : w_random w' = w_random w).
  { unfold w'. rewrite update_table_run. reflexivity. }
  assert (Hother : forall b, b <> a -> estimate (w_table w') o b = 0%float).
  { intros b Hb. unfold w', estimate. rewrite update_table_run. cbn.
    rewrite lookup_insert_ne by congruence. now rewrite Hnone. }
  assert (Hu' : (fst (random_random random (w_random w')) <? 0)%float = false).
  { rewrite Hrand. now apply float_leb_ltb_false. }
  assert (Hn : 1 <= n) by lia.
  split.
  - intros Hpos.
    assert (Hnan : forall b, b < n -> is_nan (estimate (w_table w') o b) = false).
    { intros b _. destruct (Nat.eq_dec b a) as [->|Hb].
      - now apply float_ltb_not_nan in Hpos.
      - now rewrite Hother. }
    rewrite (get_action_exploit random env h o 0 w' Hu' Hn Hnan). cbn [fst].
    fold n. rewrite (greedy_actions_unique (w_table w') o n a); try assumption.
    + cbn [length].
      assert (Hi : fst (random_below random 1 (snd (random_random random (w_random w')))) < 1)
        by (apply Hbelow; lia).
      destruct (fst (random_below random 1 _)); [reflexivity | lia].
    + now apply float_ltb_not_nan in Hpos.
    + intros b _ Hb. now rewrite Hother.
  - intros Hneg Hn2.
    assert (Hnan : forall b, b < n -> is_nan (estimate (w_table w') o b) = false).
    { intros b _. destruct (Nat.eq_dec b a) as [->|Hb].
      - now apply float_ltb_not_nan in Hneg.
      - now rewrite Hother. }
    rewrite (get_action_exploit random env h o 0 w' Hu' Hn Hnan). cbn [fst].
    fold n. destruct (tied_is_greedy (w_table w') o n Hn Hnan) as (m & _ & _ & Hne).
    set (tied := greedy_actions (w_table w') o n) in *.
    set (i := fst (random_below random (length tied) _)).
    assert (Hi : i < length tied).
    { apply Hbelow. clearbody tied. destruct tied; [congruence | cbn; lia]. }
    rewrite (nth_error_nth_lt _ _ Hi). exists (nth i tied 0). split; [reflexivity|].
    assert (Hin : In (nth i tied 0) tied) by now apply nth_In.
    apply greedy_actions_spec in Hin as [Hlt Hall]. split; [|assumption].
    intros Heq. rewrite Heq in Hall.
    destruct (Nat.eq_dec a 0) as [Ha0|Ha0].
    + eapply float_ltb_not_leb; [exact Hneg|].
      rewrite <- (Hother 1) by lia. apply Hall. lia.
    + eapply float_ltb_not_leb; [exact Hneg|].
      rewrite <- (Hother 0) by lia. apply Hall. lia.
Qed.

(** X5.  An environment without actions: the exploitation branch makes no
    lookup and raises [ValueError], the error of [max] on an empty
    sequence. *)
Theorem get_action_without_actions h o eps (w : World_) :
  let u := fst (random_random random (w_random w)) in
  action_space_n (env h) = 0 ->
  (u <? eps)%float = false ->
  get_action random env h o eps w =
  (Raise ValueError,
   set_random (snd (random_random random (w_random w))) (add_log [CallGetAction h eps] w)).
Proof.
  intros u Hn Hu. pose proof (get_action_run random env h o eps w) as Hrun.
  cbn zeta in Hrun. fold u in Hrun. rewrite Hu, Hn in Hrun. exact Hrun.
Qed.

(** X6.  The two ends of the exploration probability.  A uniform sample is
    below 1, so with epsilon at least 1 [get_action] always explores: it
    returns what [action_space.sample()] returns and never looks at the
    table.  With an epsilon that is NaN, or at most 0 while the sample is
    at least 0, it never explores: its trace is its entry and one lookup
    per action. *)
Theorem get_action_exploration_extremes h o eps (w : World_) :
  let u := fst (random_random random (w_random w)) in
  let r1 := snd (random_random random (w_random w)) in
  (0 <=? u)%float = true -> (u <? 1)%float = true ->
  ((1 <=? eps)%float = true ->
   get_action random env h o eps w =
   (Ret (fst (action_space_sample (env h) r1)),
    set_random (snd (action_space_sample (env h) r1))
      (add_log [CallGetAction h eps; SpaceSample h] w))) /\
  (is_nan eps = true \/ (eps <=? 0)%float = true ->
   w_log (snd (get_action random env h o eps w))
   = w_log w ++ CallGetAction h eps :: map (TableGet o) (seq 0 (action_space_n (env h)))).
Proof.
  intros u r1 Hu0 Hu1. split.
  - intros Heps. pose proof (get_action_run random env h o eps w) as Hrun.
    cbn zeta in Hrun. fold u r1 in Hrun.
    rewrite (float_ltb_leb_trans u 1 eps Hu1 Heps) in Hrun. exact Hrun.
  - intros Heps. apply get_action_exploit_log. fold u. destruct Heps as [Hnan|Hle].
    + now apply float_ltb_nan_r.
    + apply float_leb_ltb_false. eapply float_leb_trans; eassumption.
Qed.

(** *** The evaluation loop on no episode *)

(** X7.  [test] asked for no episode (a count of 0, or a negative one, for
    which [range] is empty) never resets or steps the environment: it
    closes it, and then the division raises [ZeroDivisionError] for the
    count 0, and gives a zero for a negative count. *)
Theorem test_without_episodes fuel h n eps (rnd : bool) (w : World_) :
  (- 2 ^ 53 < n <= 0)%Z ->
  exists result,
    test random env fuel h n eps rnd w = (result, add_log [EnvClose h] w) /\
    (n = 0%Z -> result = Raise ZeroDivisionError) /\
    (n <> 0%Z -> exists q, result = Ret q /\ (q =? 0)%float = true).
Proof.
  intros Hn. rewrite test_run.
  replace (Z.to_nat n) with 0 by lia. cbn [test_episodes]. unfold ret.
  eexists. split; [reflexivity|]. split.
  - intros ->. reflexivity.
  - intros Hne. destruct (py_float_small n Hne) as (d & Hd & Hfin & Hz & _); [lia|].
    rewrite Hd. cbn [obind]. unfold py_truediv. rewrite Hz.
    eexists. split; [reflexivity|]. now apply float_zero_div.
Qed.

(** *** The training loop on degenerate parameters *)

(** X10.  With no observation budget [train] runs no episode: for every
    fuel it returns, having wrapped the learning environment and closed
    both environments, and nothing else: no reset, no step, no table
    call. *)
Theorem train_without_budget fuel c (w : World_) :
  (total_observations c <= 0)%Z ->
  train random env fuel c w
  = (Ret tt, add_log [MonitorLearning; EnvClose Learning; InnerClose] w).
Proof.
  intros Hc. rewrite train_run, train_loop_done by assumption.
  now rewrite add_log_app.
Qed.

(** One step of the inner loop of [train] with a test interval of 0: the
    modulo of the testing round raises, unless something raised before. *)
Lemma train_episode_zero_interval fuel c o a n ep tot (w : World_) :
  test_interval c = 0%Z ->
  exists e, fst (train_episode random env (S fuel) c o a n ep tot w) = Raise e.
Proof.
  intros Hti. rewrite train_episode_unfold.
  destruct (env_step (env Learning) a (env_state Learning w)) as [[[o1 r1] d1] s1].
  cbn zeta.
  destruct (schedule_halts (start_epsilon c) (end_epsilon c) n (total_observations c))
    as [Heps _].
  destruct (schedule_halts (start_learning_rate c) (end_learning_rate c) n
              (total_observations c)) as [_ Hlr].
  destruct (get_epsilon _ _ _ _) as [eps|e|]; [|eexists; reflexivity|congruence].
  match goal with |- context [get_action random env Learning o1 eps ?w1] =>
    destruct (get_action_frame random env Learning o1 eps w1) as (Hga & _);
    destruct (get_action random env Learning o1 eps w1) as [[a1|e|] w2]
  end; [|eexists; reflexivity|cbn in Hga; congruence].
  destruct (get_learning_rate _ _ _ _) as [lr|e|]; [|eexists; reflexivity|congruence].
  rewrite testing_round_run, Hti. cbn. eexists. reflexivity.
Qed.

Lemma get_action_quiet h o eps (w : World_) :
  w_table (snd (get_action random env h o eps w)) = w_table w /\
  exists events,
    w_log (snd (get_action random env h o eps w)) = w_log w ++ events /\
    List.filter is_table_write events = [].
Proof.
  destruct (get_action_frame random env h o eps w) as (_ & Ht & _ & _ & events & Hlog & Hev).
  split; [exact Ht|]. exists events. split; [exact Hlog|].
  destruct Hev as [->| ->]; [reflexivity|]. cbn. apply table_calls_of_gets.
Qed.

(** X11.  A test interval of 0 with a positive budget: [train] never
    completes.  It raises during the first episode, and when nothing else
    goes wrong (an action to take, no NaN in the table, a random source
    that keeps its contract, a budget below 2^53) what it raises is the
    [ZeroDivisionError] of [observation_number % test_interval], right
    after the first table update, the only write of the run. *)
Theorem train_zero_test_interval fuel c (w : World_) :
  test_interval c = 0%Z -> (0 < total_observations c)%Z -> 1 <= fuel ->
  (exists e, fst (train random env fuel c w) = Raise e) /\
  (1 <= action_space_n (env Learning) -> no_nan (w_table w) ->
   (forall len r, 0 < len -> fst (random_below random len r) < len) ->
   (total_observations c < 2 ^ 53)%Z ->
   exists w' events o a q,
     train random env fuel c w = (Raise ZeroDivisionError, w') /\
     w_log w' = w_log w ++ events ++ [TableUpdate o a q] /\
     List.filter is_table_write events = []).
Proof.
  intros Hti Hpos Hfuel. destruct fuel as [|f]; [lia|].
  assert (Hlt : (0 <? total_observations c)%Z = true) by (apply Z.ltb_lt; lia).
  split.
  - rewrite train_run, train_loop_unfold, Hlt, learning_episode_unfold.
    destruct (schedule_halts (start_epsilon c) (end_epsilon c) 0 (total_observations c))
      as [Heps _].
    destruct (get_epsilon _ _ _ _) as [eps|e|]; [|eexists; reflexivity|congruence].
    match goal with |- context [get_action random env Learning ?o0 eps ?w0] =>
      destruct (get_action_frame random env Learning o0 eps w0) as (Hga & _);
      destruct (get_action random env Learning o0 eps w0) as [[a0|e|] w1]
    end; [|eexists; reflexivity|cbn in Hga; congruence].
    match goal with |- context [train_episode random env (S f) c ?o0 a0 0 1 ?t w1] =>
      destruct (train_episode_zero_interval f c o0 a0 0 1 t w1 Hti) as [e He];
      destruct (train_episode random env (S f) c o0 a0 0 1 t w1) as [[p|e'|] w2]
    end; cbn in He; try discriminate. eexists. reflexivity.
  - intros Hn Hnan Hbelow Hbound.
    destruct (py_float_small (total_observations c)) as (ft & Hft & _ & Hz & _); [lia|lia|].
    pose proof (get_epsilon_formula (start_epsilon c) (end_epsilon c) 0
                  (total_observations c) 0 ft py_float_zero Hft Hz) as Heps.
    pose proof (get_learning_rate_formula (start_learning_rate c) (end_learning_rate c) 0
                  (total_observations c) 0 ft py_float_zero Hft Hz) as Hlr.
    rewrite train_run, train_loop_unfold, Hlt, learning_episode_unfold, Heps.
    set (eps := (start_epsilon c - _)%float) in *.
    set (o0 := fst (env_reset (env Learning) _)).
    set (w0 := set_env_state Learning _ _).
    assert (Hlog0 : w_log w0 = w_log w ++ [MonitorLearning; EnvReset Learning]).
    { unfold w0. destruct (set_env_state_frame Learning
        (snd (env_reset (env Learning) (env_state Learning (add_log [MonitorLearning] w))))
        (add_log [EnvReset Learning] (add_log [MonitorLearning] w))) as (_ & -> & _).
      cbn. now rewrite <- app_assoc. }
    assert (Ht0 : w_table w0 = w_table w).
    { unfold w0. destruct (set_env_state_frame Learning
        (snd (env_reset (env Learning) (env_state Learning (add_log [MonitorLearning] w))))
        (add_log [EnvReset Learning] (add_log [MonitorLearning] w))) as (-> & _).
      reflexivity. }
    clearbody w0 o0.
    destruct (get_action_returns random env Learning o0 eps w0 Hn) as [a0 Ha0];
      [now rewrite Ht0 | assumption |].
    destruct (get_action_quiet Learning o0 eps w0) as (Ht1 & ev1 & Hlog1 & Hw1).
    destruct (get_action random env Learning o0 eps w0) as [[a0'|e|] w1];
      cbn [fst snd] in *; try discriminate.
    rewrite train_episode_unfold.
    destruct (env_step (env Learning) a0' (env_state Learning w1)) as [[[o1 r1] d1] s1].
    cbn zeta. rewrite Heps.
    set (w2 := add_log _ _).
    assert (Hlog2 : w_log w2 = w_log w1 ++ [EnvStep Learning a0' r1 d1]).
    { reflexivity. }
    assert (Ht2 : w_table w2 = w_table w).
    { change (w_table w2) with (w_table w1). congruence. }
    clearbody w2.
    destruct (get_action_returns random env Learning o1 eps w2 Hn) as [a1 Ha1];
      [now rewrite Ht2 | assumption |].
    destruct (get_action_quiet Learning o1 eps w2) as (Ht3 & ev3 & Hlog3 & Hw3).
    destruct (get_action random env Learning o1 eps w2) as [[a1'|e|] w3];
      cbn [fst snd] in *; try discriminate.
    rewrite Hlr. set (lr := (start_learning_rate c - _)%float) in *.
    rewrite testing_round_run, Hti.
    change (py_mod (0 + 1) 0) with (@Raise Z ZeroDivisionError). cbv iota beta.
    rewrite update_table_run. cbn [snd].
    eexists _, ([MonitorLearning; EnvReset Learning] ++ ev1
                ++ [EnvStep Learning a0' r1 d1] ++ ev3
                ++ CallUpdateTable lr :: (if d1 then [] else [TableGet o1 a1'])
                ++ [TableGet o0 a0']), _, _, _.
    split; [reflexivity|]. split.
    + unfold set_table, add_log. cbn [w_log]. rewrite Hlog3, Hlog2, Hlog1, Hlog0.
      destruct d1; cbn [app]; rewrite <- ?app_assoc; cbn [app];
        rewrite <- ?app_assoc; reflexivity.
    + rewrite !List.filter_app, Hw1, Hw3. destruct d1; reflexivity.
Qed.

(** ** Call traces *)

Lemma emits_consequence {A} (m : M_ A) (P P' : Event_ -> Prop)
    (Q Q' : A -> list Event_ -> Prop) :
  emits m P Q -> (forall e, P e -> P' e) ->
  (forall a events, Forall P events -> Q a events -> Q' a events) ->
  emits m P' Q'.
Proof.
  intros Hm HP HQ w. destruct (Hm w) as (events & Hlog & Hall & Hret).
  exists events. split; [assumption|]. split.
  - eapply List.Forall_impl; [exact HP | exact Hall].
  - intros a Ha. apply HQ; [assumption|]. apply Hret, Ha.
Qed.

Lemma emits_ret {A} (a : A) P (Q : A -> list Event_ -> Prop) :
  Q a [] -> emits (ret a) P Q.
Proof.
  intros HQ w. exists []. cbn. rewrite app_nil_r. split; [reflexivity|].
  split; [constructor|]. intros b Hb. congruence.
Qed.

Lemma emits_lift {A} (o : outcome A) P (Q : A -> list Event_ -> Prop) :
  (forall a, o = Ret a -> Q a []) -> emits (lift o) P Q.
Proof.
  intros HQ w. exists []. cbn. rewrite app_nil_r. split; [reflexivity|].
  split; [constructor|]. exact HQ.
Qed.

Lemma emits_out_of_fuel {A} P (Q : A -> list Event_ -> Prop) : emits out_of_fuel P Q.
Proof.
  intros w. exists []. cbn. rewrite app_nil_r. split; [reflexivity|].
  split; [constructor|]. intros a Ha. discriminate.
Qed.

Lemma emits_emit (e : Event_) P (Q : unit -> list Event_ -> Prop) :
  P e -> Q tt [e] -> emits (emit e) P Q.
Proof.
  intros HP HQ w. exists [e]. cbn. split; [reflexivity|].
  split; [repeat constructor; assumption|]. intros [] _. exact HQ.
Qed.

Lemma emits_bind {A B} (m : M_ A) (k : A -> M_ B) P
    (Q1 : A -> list Event_ -> Prop) (Q2 : A -> B -> list Event_ -> Prop)
    (Q : B -> list Event_ -> Prop) :
  emits m P Q1 -> (forall a, emits (k a) P (Q2 a)) ->
  (forall a b e1 e2, Q1 a e1 -> Q2 a b e2 -> Q b (e1 ++ e2)) ->
  emits (bind m k) P Q.
Proof.
  intros Hm Hk HQ w. unfold bind. destruct (Hm w) as (e1 & Hlog1 & HP1 & HQ1).
  destruct (m w) as [[a|e|] w1]; cbn [fst snd] in *.
  - destruct (Hk a w1) as (e2 & Hlog2 & HP2 & HQ2). exists (e1 ++ e2).
    split; [now rewrite Hlog2, Hlog1, app_assoc|].
    split; [apply Forall_app; split; assumption|].
    intros b Hb. apply (HQ a); auto.
  - exists e1. split; [assumption|]. split; [assumption|]. intros b Hb. discriminate.
  - exists e1. split; [assumption|]. split; [assumption|]. intros b Hb. discriminate.
Qed.

Lemma calls_app p (e1 e2 : list Event_) : calls p (e1 ++ e2) = calls p e1 + calls p e2.
Proof. unfold calls. now rewrite List.filter_app, length_app. Qed.

Lemma calls_gets p (o : obs) (l : list nat) :
  (forall a, p (TableGet o a) = false) -> calls p (map (TableGet o) l) = 0.
Proof.
  intros Hp. unfold calls. induction l as [|a l IH]; cbn; [reflexivity|]. now rewrite Hp.
Qed.

Lemma learning_rewards_app (e1 e2 : list Event_) :
  learning_rewards (e1 ++ e2) = learning_rewards e1 ++ learning_rewards e2.
Proof. apply flat_map_app. Qed.

Lemma learning_rewards_gets (o : obs) (l : list nat) :
  learning_rewards (map (TableGet o) l) = [].
Proof. induction l; cbn; auto. Qed.

(** *** The collaborators *)

Lemma step_emits h a P :
  (forall reward done, P (EnvStep h a reward done)) ->
  emits (step env h a) P
    (fun '(_, reward, done) events => events = [EnvStep h a reward done]).
Proof.
  intros HP w. rewrite step_run.
  destruct (env_step (env h) a (env_state h w)) as [[[o r] d] s]. cbn [fst snd].
  exists [EnvStep h a r d]. split.
  - unfold add_log. cbn [w_log].
    now destruct (set_env_state_frame h s w) as (_ & -> & _).
  - split; [repeat constructor; apply HP|]. intros [[o1 r1] d1] E.
    injection E as -> -> ->. reflexivity.
Qed.

Lemma reset_emits h P :
  P (EnvReset h) -> emits (reset env h) P (fun _ events => events = [EnvReset h]).
Proof.
  intros HP w. rewrite reset_run. cbn [fst snd]. exists [EnvReset h]. split.
  - now destruct (set_env_state_frame h (snd (env_reset (env h) (env_state h w)))
                    (add_log [EnvReset h] w)) as (_ & -> & _).
  - split; [repeat constructor; assumption|]. reflexivity.
Qed.

Lemma get_action_emits h o eps P :
  P (CallGetAction h eps) -> P (SpaceSample h) -> (forall a, P (TableGet o a)) ->
  emits (get_action random env h o eps) P
    (fun _ events =>
       events = [CallGetAction h eps; SpaceSample h] \/
       events = CallGetAction h eps :: map (TableGet o) (seq 0 (action_space_n (env h)))).
Proof.
  intros Hc Hs Hg w.
  destruct (get_action_frame random env h o eps w) as (_ & _ & _ & _ & events & Hlog & Hev).
  exists events. split; [assumption|]. split; [|auto].
  destruct Hev as [->| ->].
  - repeat constructor; assumption.
  - constructor; [assumption|]. apply List.Forall_forall. intros e He.
    apply in_map_iff in He as (a & <- & _). apply Hg.
Qed.

Lemma update_table_emits gamma alpha o a r d o' a' P :
  P (CallUpdateTable alpha) -> (forall o a, P (TableGet o a)) ->
  (forall v, P (TableUpdate o a v)) ->
  emits (update_table gamma alpha o a r d o' a') P
    (fun _ events =>
       exists v, events = CallUpdateTable alpha
                          :: (if d then [] else [TableGet o' a'])
                          ++ [TableGet o a; TableUpdate o a v]).
Proof.
  intros Hc Hg Hu w. rewrite update_table_run. cbn [fst snd].
  eexists. split; [reflexivity|]. split.
  - constructor; [assumption|]. apply Forall_app. split.
    + destruct d; repeat constructor. apply Hg.
    + repeat constructor; [apply Hg | apply Hu].
  - intros _ _. eexists. reflexivity.
Qed.


Lemma calls_cons p (e : Event_) (l : list Event_) :
  calls p (e :: l) = (if p e then 1 else 0) + calls p l.
Proof. unfold calls. cbn. destruct (p e); reflexivity. Qed.

Lemma learning_rewards_cons (e : Event_) (l : list Event_) :
  learning_rewards (e :: l)
  = match e with EnvStep Learning _ reward _ => [reward] | _ => [] end
    ++ learning_rewards l.
Proof. reflexivity. Qed.

Lemma learning_rewards_nil : learning_rewards (@nil Event_) = [].
Proof. reflexivity. Qed.

Ltac tally :=
  repeat (rewrite calls_app || rewrite calls_cons || rewrite learning_rewards_app
          || rewrite learning_rewards_cons || rewrite learning_rewards_nil
          || rewrite learning_rewards_gets || rewrite length_app
          || rewrite calls_gets by (intro; reflexivity));
  cbn [calls List.filter length app
       is_step is_selection is_render is_close is_reset is_learning_reset
       is_update is_save is_print_episode].

(** *** The evaluation loop *)

Lemma test_episode_emits fuel h eps (rnd : bool) o total :
  emits (test_episode random env fuel h eps rnd o total) (test_call h eps rnd)
    (fun _ events =>
       calls is_selection events = calls is_step events /\
       calls is_render events = (if rnd then calls is_step events else 0) /\
       calls is_reset events = 0 /\ calls is_close events = 0 /\
       1 <= calls is_step events).
Proof.
  revert o total. induction fuel as [|fuel IH]; intros o total; cbn [test_episode].
  - apply emits_out_of_fuel.
  - eapply (emits_bind _ _ _
              (fun _ events => events = if rnd then [EnvRender h] else [])
              (fun _ _ events =>
                 calls is_selection events = calls is_step events /\
                 (if rnd then calls is_render events + 1 = calls is_step events
                  else calls is_render events = 0) /\
                 calls is_reset events = 0 /\ calls is_close events = 0 /\
                 1 <= calls is_step events)).
    + destruct rnd.
      * apply emits_emit; [cbn; auto | reflexivity].
      * apply emits_ret. reflexivity.
    + intros _.
      eapply (emits_bind _ _ _ _
                (fun _ _ events =>
                   calls is_selection events + 1 = calls is_step events /\
                   (if rnd then calls is_render events + 1 = calls is_step events
                    else calls is_render events = 0) /\
                   calls is_reset events = 0 /\ calls is_close events = 0)).
      * apply get_action_emits; cbn; auto.
      * intros a.
        eapply (emits_bind _ _ _ _
                  (fun _ _ events =>
                     calls is_selection events = calls is_step events /\
                     calls is_render events = (if rnd then calls is_step events else 0) /\
                     calls is_reset events = 0 /\ calls is_close events = 0)).
        -- apply step_emits. intros. reflexivity.
        -- intros [[o1 r1] d1]. destruct d1.
           ++ apply emits_ret. cbn. destruct rnd; auto.
           ++ eapply emits_consequence; [apply IH | auto |].
              cbn beta. intros _ events _ (H1 & H2 & H3 & H4 & _). auto.
        -- intros [[o1 r1] d1] b e1 e2 -> (H1 & H2 & H3 & H4). tally.
           destruct rnd; lia.
      * intros a b e1 e2 [->| ->] (H1 & H2 & H3 & H4); tally; destruct rnd; lia.
    + intros [] b e1 e2 -> (H1 & H2 & H3 & H4 & H5). destruct rnd; tally; lia.
Qed.

Lemma test_episodes_emits fuel h eps (rnd : bool) k total :
  emits (test_episodes random env fuel h eps rnd k total) (test_call h eps rnd)
    (fun _ events =>
       calls is_selection events = calls is_step events /\
       calls is_render events = (if rnd then calls is_step events else 0) /\
       calls is_reset events = k /\ calls is_close events = 0 /\
       k <= calls is_step events).
Proof.
  revert total. induction k as [|k IH]; intros total; cbn [test_episodes].
  - apply emits_ret. cbn. destruct rnd; auto.
  - eapply (emits_bind _ _ _ _
              (fun _ _ events =>
                 calls is_selection events = calls is_step events /\
                 calls is_render events = (if rnd then calls is_step events else 0) /\
                 calls is_reset events = k /\ calls is_close events = 0 /\
                 S k <= calls is_step events)).
    + apply reset_emits. reflexivity.
    + intros o.
      eapply (emits_bind _ _ _ _ (fun _ _ events => _));
        [apply test_episode_emits | intros t; apply IH |].
      cbn beta. intros _ _ e1 e2 (H1 & H2 & H3 & H4 & H5) (K1 & K2 & K3 & K4 & K5).
      tally. destruct rnd; lia.
    + intros o b e1 e2 -> (H1 & H2 & H3 & H4 & H5). tally. destruct rnd; lia.
Qed.

Lemma test_emits fuel h n eps (rnd : bool) :
  emits (test random env fuel h n eps rnd) (test_call h eps rnd)
    (fun _ events =>
       calls is_selection events = calls is_step events /\
       calls is_render events = (if rnd then calls is_step events else 0) /\
       calls is_reset events = Z.to_nat n /\ calls is_close events = 1 /\
       Z.to_nat n <= calls is_step events).
Proof.
  unfold test.
  eapply (emits_bind _ _ _ _ (fun _ _ events => events = [EnvClose h]));
    [apply test_episodes_emits | |].
  - intros total.
    eapply (emits_bind _ _ _ (fun _ events => events = [EnvClose h])
              (fun _ _ events => events = [])).
    + apply emits_emit; reflexivity.
    + intros _.
      eapply (emits_bind _ _ _ (fun _ events => events = [])
                (fun _ _ events => events = [])).
      * apply emits_lift. reflexivity.
      * intros d. apply emits_lift. reflexivity.
      * intros _ _ e1 e2 -> ->. reflexivity.
    + intros _ _ e1 e2 -> ->. reflexivity.
  - cbn beta. intros _ _ e1 e2 (H1 & H2 & H3 & H4 & H5) ->. tally. destruct rnd; lia.
Qed.

(** X8.  What [test] calls.  Whatever its outcome, [test] on environment
    [h] calls that environment only, selects actions for it with the
    exploration probability it was given, renders only if asked to, and
    leaves the state of the other environment alone.  When it returns, it
    has selected one action per step, rendered once per step if asked to,
    reset once per episode, taken at least one step per episode, and
    closed the environment once. *)
Theorem test_calls fuel h n eps (rnd : bool) (w : World_) :
  let result := test random env fuel h n eps rnd w in
  exists events,
    w_log (snd result) = w_log w ++ events /\
    Forall (test_call h eps rnd) events /\
    (forall h', which_eqb h h' = false -> env_state h' (snd result) = env_state h' w) /\
    (forall q, fst result = Ret q ->
       calls is_selection events = calls is_step events /\
       calls is_render events = (if rnd then calls is_step events else 0) /\
       calls is_reset events = Z.to_nat n /\ calls is_close events = 1 /\
       Z.to_nat n <= calls is_step events).
Proof.
  cbn zeta. destruct (test_emits fuel h n eps rnd w) as (events & Hlog & HP & HQ).
  exists events. split; [assumption|]. split; [assumption|]. split; [|assumption].
  intros h' Hh. now apply test_other.
Qed.

(** *** The training loop *)

Lemma test_call_train_call (e : Event_) : test_call Testing 0 false e -> train_call e.
Proof.
  destruct e as [| | |h|h ? ? ?|h|h|h| | | |h eps| | |]; cbn; try tauto.
  - intros [_ ?]. discriminate.
  - intros ->. exact I.
  - intros [-> ->]. reflexivity.
Qed.

Lemma testing_calls_silent (events : list Event_) :
  Forall (test_call Testing 0 false) events -> learning_silent events.
Proof.
  unfold learning_silent. induction 1 as [|e l He _ (IH1 & IH2 & IH3 & IH4 & IH5)].
  - repeat split; reflexivity.
  - rewrite !calls_cons.
    destruct e as [| | |h|h ? ? ?|h|h|h| | | |h eps| | |]; cbn in He |- *;
      try contradiction; try (subst h); repeat split; assumption.
Qed.

Lemma learning_silent_app (e1 e2 : list Event_) :
  learning_silent e1 -> learning_silent e2 -> learning_silent (e1 ++ e2).
Proof.
  unfold learning_silent. intros (H1 & H2 & H3 & H4 & H5) (K1 & K2 & K3 & K4 & K5).
  tally. rewrite H1, K1. repeat split; lia.
Qed.

Lemma selection_silent h o eps (events : list Event_) :
  events = [CallGetAction h eps; SpaceSample h] \/
  events = CallGetAction h eps :: map (TableGet o) (seq 0 (action_space_n (env h))) ->
  learning_silent events.
Proof. unfold learning_silent. intros [->| ->]; tally; repeat split; reflexivity. Qed.

Lemma episode_account_prefix c ep n tot k p (e1 e2 : list Event_) :
  learning_silent e1 -> episode_account c ep n tot k p e2 ->
  episode_account c ep n tot k p (e1 ++ e2).
Proof.
  unfold learning_silent, episode_account.
  intros (H1 & H2 & H3 & H4 & H5) (K1 & K2 & K3 & K4 & K5 & K6 & K7).
  tally. rewrite H1. cbn [app length]. repeat split; try assumption; lia.
Qed.

Lemma testing_round_emits fuel c ep n :
  emits (testing_round random env fuel c ep n) train_call
    (fun _ events => learning_silent events).
Proof.
  unfold testing_round.
  eapply (emits_bind _ _ _ (fun _ events => events = [])
            (fun _ _ events => learning_silent events)).
  - apply emits_lift. reflexivity.
  - intros remainder. destruct (remainder =? 0)%Z.
    + eapply (emits_bind _ _ _ (fun _ events => learning_silent events)
                (fun _ _ events => learning_silent events)).
      * apply emits_emit; [exact I|]. unfold learning_silent. tally. auto.
      * intros _.
        eapply (emits_bind _ _ _ (fun _ events => learning_silent events)
                  (fun _ _ events => learning_silent events)).
        -- eapply emits_consequence; [apply test_emits | apply test_call_train_call |].
           intros _ events Hall _. now apply testing_calls_silent.
        -- intros average. apply emits_emit; [exact I|]. unfold learning_silent. tally. auto.
        -- intros x y e1 e2. apply learning_silent_app.
      * intros x y e1 e2. apply learning_silent_app.
    + apply emits_ret. unfold learning_silent. tally. auto.
  - intros _ _ e1 e2 -> Hs. exact Hs.
Qed.

Lemma train_episode_emits fuel c o a n ep tot :
  emits (train_episode random env fuel c o a n ep tot) train_call
    (fun p events =>
       episode_account c ep n tot 0 p events /\ 1 <= length (learning_rewards events)).
Proof.
  revert o a n tot. induction fuel as [|fuel IH]; intros o a n tot; cbn [train_episode].
  - apply emits_out_of_fuel.
  - eapply (emits_bind _ _ _ _
              (fun x p events =>
                 episode_account c ep (n + 1) (tot + snd (fst x)) 1 p events)).
    + apply step_emits. intros. exact I.
    + intros [[o1 r1] d1]. cbn [fst snd].
      eapply (emits_bind _ _ _ (fun _ events => events = [])
                (fun _ p events => episode_account c ep (n + 1) (tot + r1) 1 p events)).
      * apply emits_lift. reflexivity.
      * intros eps.
        eapply (emits_bind _ _ _ _
                  (fun _ p events => episode_account c ep (n + 1) (tot + r1) 1 p events)).
        -- apply get_action_emits; intros; exact I.
        -- intros a1.
           eapply (emits_bind _ _ _ (fun _ events => events = [])
                     (fun _ p events =>
                        episode_account c ep (n + 1) (tot + r1) 1 p events)).
           ++ apply emits_lift. reflexivity.
           ++ intros lr.
              eapply (emits_bind _ _ _ _
                        (fun _ p events =>
                           episode_account c ep (n + 1) (tot + r1) 0 p events)).
              ** apply update_table_emits; intros; exact I.
              ** intros _.
                 eapply (emits_bind _ _ _ _
                           (fun _ p events =>
                              episode_account c ep (n + 1) (tot + r1) 0 p events)).
                 --- apply testing_round_emits.
                 --- intros _. destruct d1.
                     +++ eapply (emits_bind _ _ _
                                   (fun remainder events =>
                                      events = [] /\
                                      py_mod (ep + 1) (table_saving_interval c)
                                      = Ret remainder)
                                   (fun remainder p events =>
                                      p_episode_number p = (ep + 1)%Z /\
                                      p_observation_number p = (n + 1)%Z /\
                                      p_total_rewards p = (tot + r1)%float /\
                                      events = if (remainder =? 0)%Z then [TableSave]
                                               else [])).
                         *** apply emits_lift. auto.
                         *** intros remainder.
                             eapply (emits_bind _ _ _
                                       (fun _ events =>
                                          events = if (remainder =? 0)%Z then [TableSave]
                                                   else [])
                                       (fun _ p events =>
                                          p_episode_number p = (ep + 1)%Z /\
                                          p_observation_number p = (n + 1)%Z /\
                                          p_total_rewards p = (tot + r1)%float /\
                                          events = [])).
                             ---- destruct (remainder =? 0)%Z.
                                  ++++ apply emits_emit; [exact I | reflexivity].
                                  ++++ apply emits_ret. reflexivity.
                             ---- intros _. apply emits_ret. cbn. auto.
                             ---- intros _ p e1 e2 -> (H1 & H2 & H3 & ->).
                                  rewrite app_nil_r. auto.
                         *** intros remainder p e1 e2 [-> Hmod] (H1 & H2 & H3 & ->).
                             unfold py_mod in Hmod.
                             destruct (table_saving_interval c =? 0)%Z; [discriminate|].
                             injection Hmod as <-. unfold episode_account.
                             destruct (_ =? 0)%Z; tally; cbn [fold_left];
                               repeat split; try assumption; lia.
                     +++ eapply emits_consequence; [apply IH | auto |].
                         cbn beta. intros p events _ [Hacc _]. exact Hacc.
                 --- intros x p e1 e2. apply episode_account_prefix.
              ** intros _ p e1 e2 [v ->]. unfold episode_account.
                 intros (K1 & K2 & K3 & K4 & K5 & K6 & K7).
                 destruct d1; tally; repeat split; try assumption; lia.
           ++ intros _ p e1 e2 -> Hacc. exact Hacc.
        -- intros x p e1 e2 Hsel. apply episode_account_prefix.
           eapply selection_silent, Hsel.
      * intros _ p e1 e2 -> Hacc. exact Hacc.
    + intros [[o1 r1] d1] p e1 e2 ->. cbn [fst snd]. unfold episode_account.
      intros (K1 & K2 & K3 & K4 & K5 & K6 & K7). tally. cbn [fold_left].
      split; [|lia]. repeat split; try assumption; lia.
Qed.

Lemma learning_episode_emits fuel c n ep :
  emits (learning_episode random env fuel c n ep) train_call
    (fun p events =>
       p_episode_number p = (ep + 1)%Z /\
       p_observation_number p = (n + Z.of_nat (length (learning_rewards events)))%Z /\
       p_total_rewards p = float_sum (learning_rewards events) /\
       calls is_update events = length (learning_rewards events) /\
       calls is_learning_reset events = 1 /\
       calls is_print_episode events = 0 /\
       calls is_save events
       = (if ((ep + 1) mod table_saving_interval c =? 0)%Z then 1 else 0) /\
       1 <= length (learning_rewards events)).
Proof.
  unfold learning_episode.
  eapply (emits_bind _ _ _ _
            (fun _ p events =>
               episode_account c ep n 0 0 p events /\
               1 <= length (learning_rewards events))).
  - apply reset_emits. exact I.
  - intros o.
    eapply (emits_bind _ _ _ (fun _ events => events = [])
              (fun _ p events =>
                 episode_account c ep n 0 0 p events /\
                 1 <= length (learning_rewards events))).
    + apply emits_lift. reflexivity.
    + intros eps.
      eapply (emits_bind _ _ _ _ (fun _ p events => _)).
      * apply get_action_emits; intros; exact I.
      * intros a. apply train_episode_emits.
      * cbn beta. intros x p e1 e2 Hsel [Hacc Hlen].
        pose proof (selection_silent _ _ _ _ Hsel) as Hs.
        split; [now apply episode_account_prefix|].
        destruct Hs as [Hs _]. tally. rewrite Hs. exact Hlen.
    + cbn beta. intros _ p e1 e2 -> Hacc. exact Hacc.
  - intros o p e1 e2 -> [(K1 & K2 & K3 & K4 & K5 & K6 & K7) Hlen].
    unfold float_sum. tally. repeat split; try assumption; lia.
Qed.

Lemma train_loop_emits fuel c n ep :
  emits (train_loop random env fuel c n ep) train_call
    (fun x events =>
       fst x = (n + Z.of_nat (length (learning_rewards events)))%Z /\
       snd x = (ep + Z.of_nat (calls is_learning_reset events))%Z /\
       (total_observations c <= fst x)%Z /\
       calls is_update events = length (learning_rewards events) /\
       calls is_print_episode events = calls is_learning_reset events /\
       calls is_learning_reset events <= length (learning_rewards events)).
Proof.
  revert n ep. induction fuel as [|fuel IH]; intros n ep; cbn [train_loop];
    destruct (n <? total_observations c)%Z eqn:Hlt.
  - apply emits_out_of_fuel.
  - apply emits_ret. apply Z.ltb_ge in Hlt. tally. cbn [fst snd]. repeat split; lia.
  - eapply (emits_bind _ _ _ _
              (fun p x events =>
                 fst x = (p_observation_number p
                          + Z.of_nat (length (learning_rewards events)))%Z /\
                 snd x = (p_episode_number p
                          + Z.of_nat (calls is_learning_reset events))%Z /\
                 (total_observations c <= fst x)%Z /\
                 calls is_update events = length (learning_rewards events) /\
                 calls is_print_episode events = S (calls is_learning_reset events) /\
                 calls is_learning_reset events <= length (learning_rewards events))).
    + apply learning_episode_emits.
    + intros p.
      eapply (emits_bind _ _ _ (fun _ events => events = [PrintEpisode _ _ _ _])
                (fun _ x events => _)).
      * apply emits_emit; [exact I | reflexivity].
      * intros _. apply IH.
      * cbn beta. intros _ x e1 e2 -> (K1 & K2 & K3 & K4 & K5 & K6). tally.
        repeat split; try assumption; lia.
    + cbn beta. intros p x e1 e2 (H1 & H2 & H3 & H4 & H5 & H6 & H7 & H8)
        (K1 & K2 & K3 & K4 & K5 & K6). tally. repeat split; lia.
  - apply emits_ret. apply Z.ltb_ge in Hlt. tally. cbn [fst snd]. repeat split; lia.
Qed.

(** X12.  What [train] calls.  Whatever its outcome, [train] first wraps
    the learning environment, and up to the two final [close] calls it
    never renders, and every selection it makes for the testing
    environment is greedy (exploration probability 0). *)
Theorem train_calls fuel c (w : World_) :
  let result := train random env fuel c w in
  exists events closing,
    w_log (snd result) = w_log w ++ MonitorLearning :: events ++ closing /\
    Forall train_call events /\
    (closing = [] \/ closing = [EnvClose Learning; InnerClose]).
Proof.
  cbn zeta. rewrite train_run.
  destruct (train_loop_emits fuel c 0 1 (add_log [MonitorLearning] w))
    as (events & Hlog & HP & _).
  exists events.
  destruct (train_loop random env fuel c 0 1 (add_log [MonitorLearning] w))
    as [[x|e|] w1]; cbn [fst snd] in *.
  - exists [EnvClose Learning; InnerClose]. split; [|auto].
    unfold add_log. cbn [w_log]. rewrite Hlog. cbn [add_log w_log].
    now rewrite <- !app_assoc.
  - exists []. split; [|auto]. rewrite Hlog, app_nil_r. cbn [add_log w_log].
    now rewrite <- app_assoc.
  - exists []. split; [|auto]. rewrite Hlog, app_nil_r. cbn [add_log w_log].
    now rewrite <- app_assoc.
Qed.

(** X13.  The bookkeeping of a learning episode that returns: the episode
    number goes up by one, the observation counter by the number of steps
    taken in the learning environment, of which there is at least one;
    the reported reward is the sum of the rewards of those steps, added
    from 0 in the order received; the table is updated once per step; the
    learning environment is reset once; and the table is saved exactly
    when the new episode number is a multiple of the saving interval. *)
Theorem learning_episode_accounting fuel c n ep (w : World_) (p : progress) :
  fst (learning_episode random env fuel c n ep w) = Ret p ->
  exists events,
    w_log (snd (learning_episode random env fuel c n ep w)) = w_log w ++ events /\
    p_episode_number p = (ep + 1)%Z /\
    p_observation_number p = (n + Z.of_nat (length (learning_rewards events)))%Z /\
    1 <= length (learning_rewards events) /\
    p_total_rewards p = float_sum (learning_rewards events) /\
    calls is_update events = length (learning_rewards events) /\
    calls is_learning_reset events = 1 /\
    calls is_save events
    = (if ((ep + 1) mod table_saving_interval c =? 0)%Z then 1 else 0).
Proof.
  intros Hp. destruct (learning_episode_emits fuel c n ep w) as (events & Hlog & _ & HQ).
  destruct (HQ p Hp) as (H1 & H2 & H3 & H4 & H5 & H6 & H7 & H8).
  exists events. repeat split; assumption.
Qed.

(** X14.  The bookkeeping of a run of [train] that returns: the learning
    environment was stepped at least as many times as the observation
    budget, the table was updated once per such step, and one line was
    reported per learning episode, each episode having at least one
    step. *)
Theorem train_accounting fuel c (w : World_) :
  fst (train random env fuel c w) = Ret tt ->
  exists events,
    w_log (snd (train random env fuel c w)) = w_log w ++ events /\
    (total_observations c <= Z.of_nat (length (learning_rewards events)))%Z /\
    calls is_update events = length (learning_rewards events) /\
    calls is_print_episode events = calls is_learning_reset events /\
    calls is_learning_reset events <= length (learning_rewards events).
Proof.
  rewrite train_run.
  destruct (train_loop_emits fuel c 0 1 (add_log [MonitorLearning] w))
    as (events & Hlog & _ & HQ).
  destruct (train_loop random env fuel c 0 1 (add_log [MonitorLearning] w))
    as [[x|e|] w1]; cbn [fst snd] in *; try discriminate.
  intros _. destruct (HQ x eq_refl) as (H1 & H2 & H3 & H4 & H5 & H6).
  exists (MonitorLearning :: events ++ [EnvClose Learning; InnerClose]). split.
  - cbn [add_log w_log]. rewrite Hlog. cbn [add_log w_log]. now rewrite <- !app_assoc.
  - tally. repeat split; lia.
Qed.

(** *** The two intervals of [train] *)

(** With a saving interval of 0 no learning episode completes: the modulo
    at its end raises. *)
Lemma train_episode_zero_saving fuel c o a n ep tot (w : World_) (p : progress) :
  table_saving_interval c = 0%Z ->
  fst (train_episode random env fuel c o a n ep tot w) <> Ret p.
Proof.
  intros Hts. revert o a n tot w.
  induction fuel as [|fuel IH]; intros o a n tot w; [discriminate|].
  rewrite train_episode_unfold.
  destruct (env_step (env Learning) a (env_state Learning w)) as [[[o1 r1] d1] s1].
  cbn zeta.
  destruct (get_epsilon _ _ _ _) as [eps|e|]; try discriminate.
  destruct (get_action _ _ _ _ _ _) as [[a1|e|] w2]; try discriminate.
  destruct (get_learning_rate _ _ _ _) as [lr|e|]; try discriminate.
  destruct (testing_round _ _ _ _ _ _ _) as [[[]|e|] w4]; try discriminate.
  destruct d1; [|apply IH].
  rewrite Hts. discriminate.
Qed.

Lemma train_episode_needs_intervals fuel c o a n ep tot (w : World_) (p : progress) :
  test_interval c = 0%Z \/ table_saving_interval c = 0%Z ->
  fst (train_episode random env fuel c o a n ep tot w) <> Ret p.
Proof.
  intros [Hti|Hts]; [|now apply train_episode_zero_saving].
  destruct fuel as [|fuel]; [discriminate|].
  destruct (train_episode_zero_interval fuel c o a n ep tot w Hti) as [e He].
  rewrite He. discriminate.
Qed.

(** X15.  A run of [train] with a positive budget that returns had a test
    interval and a table saving interval other than 0: with either of
    them 0, [train] never completes. *)
Theorem train_needs_intervals fuel c (w : World_) :
  (0 < total_observations c)%Z ->
  fst (train random env fuel c w) = Ret tt ->
  test_interval c <> 0%Z /\ table_saving_interval c <> 0%Z.
Proof.
  intros Hpos Hret.
  assert (Hnot : ~ (test_interval c = 0%Z \/ table_saving_interval c = 0%Z)); [|lia].
  intros Hzero. revert Hret. rewrite train_run.
  assert (Hloop : forall x, fst (train_loop random env fuel c 0 1
                                   (add_log [MonitorLearning] w)) <> Ret x).
  { intros x. destruct fuel as [|fuel].
    - cbn [train_loop]. replace (0 <? total_observations c)%Z with true
        by (symmetry; apply Z.ltb_lt; lia). discriminate.
    - rewrite train_loop_unfold. replace (0 <? total_observations c)%Z with true
        by (symmetry; apply Z.ltb_lt; lia).
      rewrite learning_episode_unfold.
      destruct (get_epsilon _ _ _ _) as [eps|e|]; try discriminate.
      destruct (get_action _ _ _ _ _ _) as [[a1|e|] w2]; try discriminate.
      match goal with |- context [train_episode random env ?f c ?o a1 0 1 ?t w2] =>
        pose proof (train_episode_needs_intervals f c o a1 0 1 t w2) as Hep;
        destruct (train_episode random env f c o a1 0 1 t w2) as [[p|e|] w3]
      end; try discriminate.
      exfalso. now apply (Hep p Hzero). }
  destruct (train_loop _ _ _ _ _ _ _) as [[x|e|] w1]; try discriminate.
  exfalso. now apply (Hloop x).
Qed.

(** *** The testing rounds of [train] *)

Lemma emits_both {A} (m : M_ A) P (Q1 Q2 : A -> list Event_ -> Prop) :
  emits m P Q1 -> emits m P Q2 -> emits m P (fun a events => Q1 a events /\ Q2 a events).
Proof.
  intros H1 H2 w. destruct (H1 w) as (e1 & Hlog1 & HP1 & HQ1).
  destruct (H2 w) as (e2 & Hlog2 & _ & HQ2).
  assert (e2 = e1) as -> by (rewrite Hlog1 in Hlog2; now apply app_inv_head in Hlog2).
  exists e1. split; [assumption|]. split; [assumption|]. intros a Ha. split; auto.
Qed.

Lemma monitor_uids_app (e1 e2 : list Event_) :
  monitor_uids (e1 ++ e2) = monitor_uids e1 ++ monitor_uids e2.
Proof. apply flat_map_app. Qed.

Lemma monitor_uids_gets (o : obs) (l : list nat) : monitor_uids (map (TableGet o) l) = [].
Proof. induction l; cbn; auto. Qed.

Lemma testing_calls_no_monitor (events : list Event_) :
  Forall (test_call Testing 0 false) events -> monitor_uids events = [].
Proof.
  induction 1 as [|e l He _ IH]; [reflexivity|].
  destruct e; cbn in He |- *; try contradiction; assumption.
Qed.

Lemma rounds_due_S interval n k :
  rounds_due interval n (S k)
  = (if ((n + 1) mod interval =? 0)%Z then [((n + 1) / interval)%Z] else [])
    ++ rounds_due interval (n + 1) k.
Proof.
  unfold rounds_due. cbn [seq flat_map]. rewrite Z.add_0_r. f_equal.
  rewrite <- seq_shift, !flat_map_concat_map, map_map. f_equal.
  apply map_ext. intros i.
  replace (n + 1 + Z.of_nat (S i))%Z with (n + 1 + 1 + Z.of_nat i)%Z by lia. reflexivity.
Qed.

Lemma rounds_due_app interval n k1 k2 :
  rounds_due interval n (k1 + k2)
  = rounds_due interval n k1 ++ rounds_due interval (n + Z.of_nat k1) k2.
Proof.
  revert n. induction k1 as [|k1 IH]; intros n.
  - cbn [Nat.add]. change (rounds_due interval n 0) with (@nil Z). cbn [app].
    now rewrite Z.add_0_r.
  - cbn [Nat.add]. rewrite !rounds_due_S, IH, <- app_assoc.
    replace (n + 1 + Z.of_nat k1)%Z with (n + Z.of_nat (S k1))%Z by lia. reflexivity.
Qed.

Lemma quotient_step (interval k : Z) :
  (0 < interval)%Z -> (0 <= k)%Z ->
  ((k + 1) / interval
   = if ((k + 1) mod interval =? 0) then k / interval + 1 else k / interval)%Z.
Proof.
  intros Hi Hk.
  pose proof (Z.div_mod k interval ltac:(lia)) as Hdm.
  pose proof (Z.mod_pos_bound k interval Hi) as Hb.
  destruct (Z.eq_dec (k mod interval + 1)%Z interval) as [Heq|Hne].
  - assert (Hk1 : (k + 1 = interval * (k / interval + 1) + 0)%Z) by lia.
    assert (Hmod : ((k + 1) mod interval = 0)%Z).
    { symmetry. apply (Z.mod_unique_pos _ _ (k / interval + 1)); lia. }
    rewrite Hmod. cbn [Z.eqb]. symmetry. apply (Z.div_unique_pos _ _ _ 0); lia.
  - assert (Hk1 : (k + 1 = interval * (k / interval) + (k mod interval + 1))%Z) by lia.
    assert (Hmod : ((k + 1) mod interval = k mod interval + 1)%Z).
    { symmetry. apply (Z.mod_unique_pos _ _ (k / interval)); lia. }
    rewrite Hmod. destruct (Z.eqb_spec (k mod interval + 1)%Z 0%Z); [lia|].
    symmetry. apply (Z.div_unique_pos _ _ _ (k mod interval + 1)); lia.
Qed.

(** From counter 0 on, the rounds due are numbered 1, 2, 3, ... *)
Lemma rounds_due_from_zero interval k :
  (0 < interval)%Z ->
  rounds_due interval 0 k = map Z.of_nat (seq 1 (Z.to_nat (Z.of_nat k / interval))).
Proof.
  intros Hi. induction k as [|k IH].
  - rewrite Z.div_0_l by lia. reflexivity.
  - replace (S k) with (k + 1) by lia. rewrite rounds_due_app, IH, rounds_due_S.
    change (rounds_due interval (0 + Z.of_nat k + 1) 0) with (@nil Z). rewrite app_nil_r.
    replace (Z.of_nat (k + 1)) with (Z.of_nat k + 1)%Z by lia.
    replace (0 + Z.of_nat k + 1)%Z with (Z.of_nat k + 1)%Z by lia.
    rewrite (quotient_step interval (Z.of_nat k)) by lia.
    assert (Hq : (0 <= Z.of_nat k / interval)%Z) by (apply Z.div_pos; lia).
    set (q := (Z.of_nat k / interval)%Z) in *. clearbody q.
    destruct ((Z.of_nat k + 1) mod interval =? 0)%Z.
    + replace (Z.to_nat (q + 1)) with (S (Z.to_nat q)) by lia.
      rewrite seq_S, map_app. cbn [map]. f_equal. f_equal. lia.
    + now rewrite app_nil_r.
Qed.

Lemma selection_quiet h o eps (events : list Event_) :
  events = [CallGetAction h eps; SpaceSample h] \/
  events = CallGetAction h eps :: map (TableGet o) (seq 0 (action_space_n (env h))) ->
  learning_rewards events = [] /\ monitor_uids events = [].
Proof.
  intros [->| ->]; [split; reflexivity|].
  rewrite learning_rewards_cons, learning_rewards_gets.
  change (monitor_uids (?e :: ?l)) with (monitor_uids [e] ++ monitor_uids l).
  rewrite monitor_uids_gets. split; reflexivity.
Qed.

Lemma rounds_prefix interval n k (e1 e2 : list Event_) :
  learning_rewards e1 = [] /\ monitor_uids e1 = [] ->
  monitor_uids e2 = rounds_due interval n (k + length (learning_rewards e2)) ->
  monitor_uids (e1 ++ e2)
  = rounds_due interval n (k + length (learning_rewards (e1 ++ e2))).
Proof.
  intros [H1 H2] Hrest. now rewrite monitor_uids_app, learning_rewards_app, H1, H2.
Qed.

Lemma testing_round_rounds fuel c ep n :
  emits (testing_round random env fuel c ep n) train_call
    (fun _ events =>
       learning_rewards events = [] /\
       monitor_uids events
       = if (n mod test_interval c =? 0)%Z then [(n / test_interval c)%Z] else []).
Proof.
  unfold testing_round.
  eapply (emits_bind _ _ _
            (fun remainder events =>
               events = [] /\ py_mod n (test_interval c) = Ret remainder)
            (fun remainder _ events =>
               learning_rewards events = [] /\
               monitor_uids events
               = if (remainder =? 0)%Z then [(n / test_interval c)%Z] else [])).
  - apply emits_lift. auto.
  - intros remainder. destruct (remainder =? 0)%Z.
    + eapply (emits_bind _ _ _
                (fun _ events => events = [MonitorTesting (n / test_interval c)])
                (fun _ _ events => learning_rewards events = [] /\ monitor_uids events = [])).
      * apply emits_emit; [exact I | reflexivity].
      * intros _.
        eapply (emits_bind _ _ _
                  (fun _ events => learning_rewards events = [] /\ monitor_uids events = [])
                  (fun average _ events => events = [PrintTest ep n average])).
        -- eapply emits_consequence; [apply test_emits | apply test_call_train_call |].
           intros _ events Hall _. split.
           ++ now destruct (testing_calls_silent events Hall) as [Hlr _].
           ++ now apply testing_calls_no_monitor.
        -- intros average. apply emits_emit; [exact I | reflexivity].
        -- intros x y e1 e2 [H1 H2] ->.
           rewrite learning_rewards_app, monitor_uids_app, H1, H2. split; reflexivity.
      * intros x y e1 e2 -> [H1 H2].
        rewrite learning_rewards_app, monitor_uids_app, H1, H2. split; reflexivity.
    + apply emits_ret. split; reflexivity.
  - intros remainder y e1 e2 [-> Hmod] Hq. cbn [app]. unfold py_mod in Hmod.
    destruct (test_interval c =? 0)%Z; [discriminate|]. injection Hmod as <-. exact Hq.
Qed.

Lemma train_episode_rounds fuel c o a n ep tot :
  emits (train_episode random env fuel c o a n ep tot) train_call
    (fun _ events =>
       monitor_uids events
       = rounds_due (test_interval c) n (length (learning_rewards events))).
Proof.
  revert o a n tot. induction fuel as [|fuel IH]; intros o a n tot; cbn [train_episode].
  - apply emits_out_of_fuel.
  - set (due_after_step := fun (_ : progress) (events : list Event_) =>
           monitor_uids events
           = rounds_due (test_interval c) n (1 + length (learning_rewards events))).
    set (due_after_round := fun (_ : progress) (events : list Event_) =>
           monitor_uids events
           = rounds_due (test_interval c) (n + 1) (0 + length (learning_rewards events))).
    eapply (emits_bind _ _ _ _ (fun _ => due_after_step)).
    + apply step_emits. intros. exact I.
    + intros [[o1 r1] d1].
      eapply (emits_bind _ _ _ (fun _ events => events = []) (fun _ => due_after_step)).
      * apply emits_lift. reflexivity.
      * intros eps. eapply (emits_bind _ _ _ _ (fun _ => due_after_step)).
        -- apply get_action_emits; intros; exact I.
        -- intros a1.
           eapply (emits_bind _ _ _ (fun _ events => events = [])
                     (fun _ => due_after_step)).
           ++ apply emits_lift. reflexivity.
           ++ intros lr. eapply (emits_bind _ _ _ _ (fun _ => due_after_step)).
              ** apply update_table_emits; intros; exact I.
              ** intros _. eapply (emits_bind _ _ _ _ (fun _ => due_after_round)).
                 --- apply testing_round_rounds.
                 --- intros _. destruct d1.
                     +++ eapply (emits_bind _ _ _ (fun _ events => events = [])
                                   (fun _ _ events =>
                                      learning_rewards events = [] /\
                                      monitor_uids events = [])).
                         *** apply emits_lift. reflexivity.
                         *** intros remainder.
                             eapply (emits_bind _ _ _
                                       (fun _ events =>
                                          learning_rewards events = [] /\
                                          monitor_uids events = [])
                                       (fun _ _ events => events = [])).
                             ---- destruct (remainder =? 0)%Z.
                                  ++++ apply emits_emit; [exact I | split; reflexivity].
                                  ++++ apply emits_ret. split; reflexivity.
                             ---- intros _. apply emits_ret. reflexivity.
                             ---- intros x y e1 e2 Hq ->. now rewrite app_nil_r.
                         *** intros x p e1 e2 -> [H1 H2]. unfold due_after_round.
                             cbn [app]. now rewrite H1, H2.
                     +++ eapply emits_consequence; [apply IH | auto |].
                         intros p events _ Hdue. exact Hdue.
                 --- intros x p e1 e2 [H1 H2] Hdue. unfold due_after_step, due_after_round in *.
                     rewrite monitor_uids_app, learning_rewards_app, H1, H2, Hdue.
                     cbn [app Nat.add]. now rewrite rounds_due_S.
              ** intros x p e1 e2 [v ->]. apply rounds_prefix.
                 destruct d1; split; reflexivity.
           ++ intros x p e1 e2 -> Hdue. exact Hdue.
        -- intros x p e1 e2 Hsel. apply rounds_prefix. eapply selection_quiet, Hsel.
      * intros x p e1 e2 -> Hdue. exact Hdue.
    + intros [[o1 r1] d1] p e1 e2 -> Hdue. unfold due_after_step in Hdue.
      rewrite monitor_uids_app, learning_rewards_app, Hdue. reflexivity.
Qed.

Lemma learning_episode_rounds fuel c n ep :
  emits (learning_episode random env fuel c n ep) train_call
    (fun _ events =>
       monitor_uids events
       = rounds_due (test_interval c) n (length (learning_rewards events))).
Proof.
  unfold learning_episode.
  set (due := fun (_ : progress) (events : list Event_) =>
         monitor_uids events
         = rounds_due (test_interval c) n (0 + length (learning_rewards events))).
  eapply (emits_bind _ _ _ _ (fun _ => due)).
  - apply reset_emits. exact I.
  - intros o.
    eapply (emits_bind _ _ _ (fun _ events => events = []) (fun _ => due)).
    + apply emits_lift. reflexivity.
    + intros eps. eapply (emits_bind _ _ _ _ (fun _ => due)).
      * apply get_action_emits; intros; exact I.
      * intros a. apply train_episode_rounds.
      * intros x p e1 e2 Hsel. apply rounds_prefix. eapply selection_quiet, Hsel.
    + intros x p e1 e2 -> Hdue. exact Hdue.
  - intros o p e1 e2 -> Hdue. apply (rounds_prefix _ _ 0); [split; reflexivity | exact Hdue].
Qed.

Lemma train_loop_rounds fuel c n ep :
  emits (train_loop random env fuel c n ep) train_call
    (fun _ events =>
       monitor_uids events
       = rounds_due (test_interval c) n (length (learning_rewards events))).
Proof.
  revert n ep. induction fuel as [|fuel IH]; intros n ep; cbn [train_loop];
    destruct (n <? total_observations c)%Z.
  - apply emits_out_of_fuel.
  - apply emits_ret. reflexivity.
  - eapply (emits_bind _ _ _ _
              (fun p _ events =>
                 monitor_uids events
                 = rounds_due (test_interval c) (p_observation_number p)
                     (length (learning_rewards events)))).
    + apply emits_both; [apply learning_episode_emits | apply learning_episode_rounds].
    + intros p.
      eapply (emits_bind _ _ _ (fun _ events => events = [PrintEpisode _ _ _ _])
                (fun _ _ events => _)).
      * apply emits_emit; [exact I | reflexivity].
      * intros _. apply IH.
      * cbn beta. intros x y e1 e2 -> Hdue. exact Hdue.
    + cbn beta. intros p x e1 e2 [(_ & Hobs & _) Hdue1] Hdue2.
      rewrite monitor_uids_app, learning_rewards_app, length_app, rounds_due_app.
      now rewrite Hdue1, Hdue2, Hobs.
  - apply emits_ret. reflexivity.
Qed.

(** X16.  The testing rounds of a run of [train] that returns, for a
    positive test interval: there is one round per multiple of the
    interval reached by the observation counter, and the identifiers
    [observation_number / test_interval] given to the Monitor of the
    testing environment are 1, 2, 3, ... in this order, hence pairwise
    different. *)
Theorem train_testing_rounds fuel c (w : World_) :
  (0 < test_interval c)%Z ->
  fst (train random env fuel c w) = Ret tt ->
  exists events,
    w_log (snd (train random env fuel c w)) = w_log w ++ events /\
    monitor_uids events
    = map Z.of_nat
        (seq 1 (Z.to_nat (Z.of_nat (length (learning_rewards events)) / test_interval c))).
Proof.
  intros Hti. rewrite train_run.
  destruct (train_loop_rounds fuel c 0 1 (add_log [MonitorLearning] w))
    as (events & Hlog & _ & HQ).
  destruct (train_loop random env fuel c 0 1 (add_log [MonitorLearning] w))
    as [[x|e|] w1]; cbn [fst snd] in *; try discriminate.
  intros _. specialize (HQ x eq_refl).
  exists (MonitorLearning :: events ++ [EnvClose Learning; InnerClose]). split.
  - cbn [add_log w_log]. rewrite Hlog. cbn [add_log w_log]. now rewrite <- !app_assoc.
  - rewrite <- rounds_due_from_zero by assumption.
    change (monitor_uids (?e :: ?l)) with (monitor_uids [e] ++ monitor_uids l).
    rewrite learning_rewards_cons, monitor_uids_app, learning_rewards_app, HQ.
    cbn [app]. change (learning_rewards [EnvClose Learning; InnerClose]) with (@nil float).
    change (monitor_uids [EnvClose Learning; InnerClose]) with (@nil Z).
    change (monitor_uids [MonitorLearning]) with (@nil Z).
    now rewrite !app_nil_r.
Qed.

End AgentMore.

(** ** Concrete runs of the further properties *)

(** A budget of 0 observations. *)
Definition idle_config : config :=
  {| discount_factor := 0.9;
     start_learning_rate := 0.5;
     end_learning_rate := 0.1;
     start_epsilon := 1;
     end_epsilon := 0.1;
     total_observations := 0;
     test_interval := 100;
     total_number_of_testing_episodes := 1;
     table_saving_interval := 100 |}.

(** A test interval of 0. *)
Definition untested_config : config :=
  {| discount_factor := 0.9;
     start_learning_rate := 0.5;
     end_learning_rate := 0.1;
     start_epsilon := 1;
     end_epsilon := 0.1;
     total_observations := 10;
     test_interval := 0;
     total_number_of_testing_episodes := 1;
     table_saving_interval := 100 |}.

(** A test interval of 4 and a budget of 10 observations. *)
Definition tested_config : config :=
  {| discount_factor := 0.9;
     start_learning_rate := 0.5;
     end_learning_rate := 0.1;
     start_epsilon := 1;
     end_epsilon := 0.1;
     total_observations := 10;
     test_interval := 4;
     total_number_of_testing_episodes := 1;
     table_saving_interval := 100 |}.

Lemma schedules_zero_horizon_witness :
  get_epsilon 1 0.1 5 0 = Raise ZeroDivisionError /\
  get_learning_rate 1 0.1 5 0 = Raise ZeroDivisionError.
Proof. apply (schedules_zero_horizon 1 0.1 5). reflexivity. Defined.

(** A prior estimate 5.0 overwritten by the target 2.0. *)
Lemma update_table_rate_one_witness :
  exists v,
    w_table (snd (update_table 0.9 1 0 0 2 true 1 0 (world_with (<[(0, 0) := 5%float]> ∅))))
      !! (0, 0) = Some v /\
    same_number v 2 = true.
Proof.
  destruct (update_table_rate_one 0.9 0 0 2 true 1 0 (world_with (<[(0, 0) := 5%float]> ∅)))
    as (v & Hv & Hs & _).
  - intros q Hq. cbn in Hq. rewrite lookup_insert_eq in Hq. injection Hq as <-. reflexivity.
  - exists v. split; [exact Hv | exact Hs].
Defined.

(** A prior estimate 5.0 kept under the target 2.0. *)
Lemma update_table_rate_zero_witness :
  exists v,
    w_table (snd (update_table 0.9 0 0 0 2 true 1 0 (world_with (<[(0, 0) := 5%float]> ∅))))
      !! (0, 0) = Some v /\
    same_number v 5 = true.
Proof.
  apply (update_table_rate_zero 0.9 0 0 2 true 1 0 (world_with (<[(0, 0) := 5%float]> ∅)) 5).
  - cbn. apply lookup_insert_eq.
  - reflexivity.
Defined.

(** Two actions, an empty table: after a reward of 1.0 for action 1 the
    greedy choice is action 1. *)
Lemma learned_action_is_chosen_witness :
  fst (get_action fixed_random (fun _ => chain_env 1 1 2) Testing 0 0
         (snd (update_table 0.9 0.5 0 1 1 true 0 0 (world_with ∅))))
  = Ret 1.
Proof.
  destruct (learned_action_is_chosen fixed_random (fun _ => chain_env 1 1 2) Testing
              0.9 0.5 0 1 1 true 0 0 (world_with ∅)) as [Hpos _].
  - cbn. lia.
  - intros b Hb. apply lookup_empty.
  - vm_compute. reflexivity.
  - apply fixed_random_below.
  - apply Hpos. vm_compute. reflexivity.
Defined.

Lemma get_action_without_actions_witness :
  fst (get_action fixed_random (fun _ => chain_env 1 1 0) Testing 0 0 (world_with ∅))
  = Raise ValueError.
Proof.
  rewrite (get_action_without_actions fixed_random (fun _ => chain_env 1 1 0) Testing 0 0
             (world_with ∅)); [reflexivity | reflexivity | vm_compute; reflexivity].
Defined.

(** The sample 0.5 and epsilon 1.0: the action is the one
    [action_space.sample()] gives. *)
Lemma get_action_exploration_extremes_witness :
  fst (get_action fixed_random (fun _ => chain_env 1 1 2) Testing 0 1 (world_with ∅))
  = Ret 0.
Proof.
  destruct (get_action_exploration_extremes fixed_random (fun _ => chain_env 1 1 2)
              Testing 0 1 (world_with ∅)) as [Hexplore _].
  - vm_compute. reflexivity.
  - vm_compute. reflexivity.
  - rewrite Hexplore; [reflexivity | vm_compute; reflexivity].
Defined.

Lemma test_without_episodes_witness :
  fst (test fixed_random (fun _ => chain_env 3 1 2) 5 Testing 0 0 false (world_with ∅))
  = Raise ZeroDivisionError.
Proof.
  destruct (test_without_episodes fixed_random (fun _ => chain_env 3 1 2) 5 Testing 0 0
              false (world_with ∅)) as (result & Hrun & Hzero & _).
  - split; [reflexivity | lia].
  - rewrite Hrun. apply Hzero. reflexivity.
Defined.

Lemma train_without_budget_witness :
  train fixed_random (fun _ => chain_env 3 1 2) 0 idle_config (world_with ∅)
  = (Ret tt, add_log [MonitorLearning; EnvClose Learning; InnerClose] (world_with ∅)).
Proof.
  apply (train_without_budget fixed_random (fun _ => chain_env 3 1 2) 0 idle_config).
  cbn. lia.
Defined.

Lemma train_zero_test_interval_witness :
  exists w',
    train fixed_random (fun _ => chain_env 3 1 2) 5 untested_config (world_with ∅)
    = (Raise ZeroDivisionError, w').
Proof.
  destruct (train_zero_test_interval fixed_random (fun _ => chain_env 3 1 2) 5
              untested_config (world_with ∅)) as [_ Hraise].
  - reflexivity.
  - reflexivity.
  - lia.
  - destruct Hraise as (w' & events & o & a & q & Hrun & _).
    + cbn. lia.
    + apply no_nan_empty.
    + apply fixed_random_below.
    + reflexivity.
    + exists w'. exact Hrun.
Defined.

(** An episode of three steps, each paying 1.0, entered at counter 0. *)
Lemma learning_episode_accounting_witness :
  exists events : list (@event nat),
    length (learning_rewards events) = 3 /\
    calls is_update events = 3 /\
    float_sum (learning_rewards events) = 3%float.
Proof.
  destruct (learning_episode_accounting fixed_random (fun _ => chain_env 3 1 2) 20
              short_config 0 1 (world_with ∅)
              {| p_observation_number := 3; p_episode_number := 2;
                 p_total_rewards := 3; p_epsilon := 0.82 |})
    as (events & _ & _ & Hn & _ & Htot & Hupd & _).
  - vm_compute. reflexivity.
  - exists events. cbn in Hn, Htot.
    assert (Hlen : length (learning_rewards events) = 3) by lia.
    split; [exact Hlen|]. split; [now rewrite Hupd | now rewrite <- Htot].
Defined.

Lemma train_accounting_witness :
  exists events : list (@event nat),
    (10 <= Z.of_nat (length (learning_rewards events)))%Z /\
    calls is_update events = length (learning_rewards events).
Proof.
  destruct (train_accounting fixed_random (fun _ => chain_env 3 1 2) 20 short_config
              (world_with ∅)) as (events & _ & Hbudget & Hupd & _).
  - vm_compute. reflexivity.
  - exists events. split; [exact Hbudget | exact Hupd].
Defined.


(** Episodes of three steps: four episodes use up the budget of 10, and
    the counter passes 4, 8 and 12. *)
Lemma train_testing_rounds_witness :
  exists events : list (@event nat),
    w_log (snd (train fixed_random (fun _ => chain_env 3 1 2) 20 tested_config
                  (world_with ∅))) = events /\
    monitor_uids events = [1; 2; 3]%Z.
Proof.
  destruct (train_testing_rounds fixed_random (fun _ => chain_env 3 1 2) 20 tested_config
              (world_with ∅)) as (events & Hlog & Huids).
  - reflexivity.
  - vm_compute. reflexivity.
  - exists events. split; [exact Hlog|]. rewrite Huids.
    assert (Hlen : length (learning_rewards events) = 12).
    { cbn [world_with w_log app] in Hlog. rewrite <- Hlog. vm_compute. reflexivity. }
    rewrite Hlen. reflexivity.
Defined.

Lemma train_needs_intervals_witness :
  test_interval short_config <> 0%Z /\ table_saving_interval short_config <> 0%Z.
Proof.
  apply (train_needs_intervals fixed_random (fun _ => chain_env 3 1 2) 20 short_config
           (world_with ∅)).
  - reflexivity.
  - vm_compute. reflexivity.
Defined.
